(** * The BLE characteristic decode engine of bleak

    A shallow embedding of [bleak/formatter.py] (the IEEE-11073 FLOAT and
    SFLOAT codecs and the [SuperStruct] class) and of the decode engine of
    [bleak/utils.py] ([DATA_FMT], the bit extractor, the field selector,
    the composite unpack, the scaling of the values, and [mac_int_2_str]),
    with the properties of the specification stated over them.

    Conventions of the embedding.
    - Python [bytes] are [list byte]; Python [int] is [Z].
    - A Python exception is a value of [exn]; a function that can raise
      returns a [result], and the statements of a function are chained
      with [x <- m ;; k] in the order in which Python evaluates them.
    - A Python [float] is represented by the exact rational it stands for
      ([FNum], kept reduced), or by an infinity or a NaN; the rounding of
      binary64 arithmetic is not modelled: a result of floating-point
      arithmetic is given as the exact product or quotient that the
      program's result rounds.  The theorems about the scaling of the
      values and about the round trips of the codecs are therefore stated
      where the arithmetic of the program is exact: on integers, and on
      numbers that binary64 holds whose products are integers.
    - [struct] is Python's module of that name in native mode (the formats
      of [utils.py] carry no byte-order prefix) on a little-endian LP64
      host (x86-64, AArch64).
    - The metadata of a characteristic is the structure that the parser
      [CHAR_XML] leaves in [fields]; the parser itself and the files it
      reads are outside the embedding, and [get_xml_char] is a parameter
      of the decoder.
    - The [debug] parameters only print, and are left out. *)

From Stdlib Require Import ZArith List String Ascii Bool Lia QArith.
From Stdlib.Strings Require Import Byte.
From Stdlib Require Import DecimalString.
Import ListNotations.

Open Scope string_scope.
Open Scope list_scope.
Open Scope Z_scope.

(** ** Exceptions and results *)

Inductive exn : Type :=
| TypeError
| AttributeError
| KeyError
| IndexError
| ValueError
| AssertionError
| OverflowError
| SyntaxError
| UnicodeDecodeError
| StructError              (* struct.error *)
| LoadError (name : string) (* get_xml_char could not load the document *).

Inductive result (A : Type) : Type :=
| Ok (a : A)
| Raise (e : exn).
Arguments Ok {A} a.
Arguments Raise {A} e.

Definition bind {A B} (m : result A) (k : A -> result B) : result B :=
  match m with
  | Ok a => k a
  | Raise e => Raise e
  end.

Declare Scope py_scope.
Delimit Scope py_scope with py.
Notation "x <- m ;; k" := (bind m (fun x => k))
  (at level 61, m at next level, right associativity) : py_scope.
Notation "' p <- m ;; k" := (bind m (fun x => match x with p => k end))
  (at level 61, p pattern, m at next level, right associativity) : py_scope.
Open Scope py_scope.

(** ** Python values *)

(** A Python float: the rational it denotes, or a special value. *)
Inductive pyfloat : Type :=
| FNum (q : Q)
| FInf (negative : bool)
| FNan.

(** The values that the decode engine puts into its results: [None],
    [bool], [int], [float], [str], and the [dict] from bit-group name to
    label (or to [False]) that the bit extractor builds. *)
#[warnings="-register-all"]
Inductive pyval : Type :=
| PNone
| PBool (b : bool)
| PInt (z : Z)
| PFloat (x : pyfloat)
| PStr (s : string)
| PDict (d : list (string * pyval)).

Definition bytes := list byte.

Definition byte_val (b : byte) : Z := Z.of_N (Byte.to_N b).

(** [str(n)] for an [int]. *)
Definition str_of_int (z : Z) : string := NilZero.string_of_int (Z.to_int z).

(** ** Ordered dictionaries

    A Python [dict] keeps insertion order, and the order of the fields of a
    characteristic is the order of the bytes on the wire: dictionaries with
    string keys are association lists. *)

Section Dict.
Context {V : Type}.

Fixpoint dict_get (d : list (string * V)) (k : string) : option V :=
  match d with
  | [] => None
  | (k', v) :: d' => if String.eqb k k' then Some v else dict_get d' k
  end.

(** [d[k] = v]: replaces the value in place, or appends a new key. *)
Fixpoint dict_set (d : list (string * V)) (k : string) (v : V)
  : list (string * V) :=
  match d with
  | [] => [(k, v)]
  | (k', v') :: d' =>
      if String.eqb k k' then (k, v) :: d' else (k', v') :: dict_set d' k v
  end.

(** [d[k]], which raises [KeyError] on a miss. *)
Definition dict_item (d : list (string * V)) (k : string) : result V :=
  match dict_get d k with
  | Some v => Ok v
  | None => Raise KeyError
  end.

Definition dict_keys (d : list (string * V)) : list string := map fst d.
Definition dict_values (d : list (string * V)) : list V := map snd d.
End Dict.

(** [dict(zip(keys, vals))]. *)
Definition dict_zip {V} (keys : list string) (vals : list V)
  : list (string * V) :=
  fold_left (fun d kv => dict_set d (fst kv) (snd kv)) (combine keys vals) [].

(** * Python's [struct] module, native mode *)

Module struct.

(** The format characters that the program can hand to [struct]: those of
    the [DATA_FMT] codes and of the literals of [formatter.py], with the
    other integer codes and the pad byte.  Every other character is "bad
    char in struct format", which is what CPython answers to the letters
    of ["utf8"] and to ["X"]. *)
Inductive code : Type :=
| Cx | Cb | CB | Cbool | Ch | CH | Ci | CI | Cl | CL | Cq | CQ | Cf | Cd.

Definition code_of_ascii (a : ascii) : option code :=
  match a with
  | "x"%char => Some Cx
  | "b"%char => Some Cb
  | "B"%char => Some CB
  | "?"%char => Some Cbool
  | "h"%char => Some Ch
  | "H"%char => Some CH
  | "i"%char => Some Ci
  | "I"%char => Some CI
  | "l"%char => Some Cl
  | "L"%char => Some CL
  | "q"%char => Some Cq
  | "Q"%char => Some CQ
  | "f"%char => Some Cf
  | "d"%char => Some Cd
  | _ => None
  end.

(** Native sizes; in native mode the alignment of a code is its size. *)
Definition size (c : code) : nat :=
  match c with
  | Cx | Cb | CB | Cbool => 1
  | Ch | CH => 2
  | Ci | CI | Cf => 4
  | Cl | CL | Cq | CQ | Cd => 8
  end%nat.

Definition is_digit (a : ascii) : bool :=
  let n := nat_of_ascii a in ((48 <=? n) && (n <=? 57))%nat.

Definition is_space (a : ascii) : bool :=
  let n := nat_of_ascii a in ((n =? 32) || ((9 <=? n) && (n <=? 13)))%nat.

Definition default {A} (d : A) (o : option A) : A :=
  match o with Some a => a | None => d end.

(** The items of a format string: a repeat count and a code each. *)
Fixpoint parse (s : string) (cnt : option nat) : result (list (nat * code)) :=
  match s with
  | EmptyString =>
      match cnt with
      | None => Ok []
      | Some _ => Raise StructError
      end
  | String a rest =>
      if is_digit a then
        parse rest (Some (10 * default 0 cnt + (nat_of_ascii a - 48))%nat)
      else if is_space a then
        match cnt with
        | None => parse rest None
        | Some _ => Raise StructError
        end
      else
        match code_of_ascii a with
        | Some c =>
            items <- parse rest None ;;
            Ok ((default 1%nat cnt, c) :: items)
        | None => Raise StructError
        end
  end.

Definition align (off a : nat) : nat := (((off + a - 1) / a) * a)%nat.

Fixpoint size_items (items : list (nat * code)) (off : nat) : nat :=
  match items with
  | [] => off
  | (n, c) :: rest => size_items rest (align off (size c) + n * size c)
  end.

Definition calcsize (fmt : string) : result nat :=
  items <- parse fmt None ;;
  Ok (size_items items 0).

(** Little-endian reading of a run of bytes. *)
Fixpoint le_int (bs : bytes) : Z :=
  match bs with
  | [] => 0
  | b :: bs' => byte_val b + 256 * le_int bs'
  end.

Definition to_signed (bits : Z) (u : Z) : Z :=
  if u <? 2 ^ (bits - 1) then u else u - 2 ^ bits.

(** An IEEE-754 bit pattern with [ebits] exponent bits and [mbits]
    fraction bits. *)
Definition ieee_decode (ebits mbits : Z) (u : Z) : pyfloat :=
  let m := u mod 2 ^ mbits in
  let e := (u / 2 ^ mbits) mod 2 ^ ebits in
  let neg := Z.odd (u / 2 ^ (mbits + ebits)) in
  if e =? 2 ^ ebits - 1 then
    if m =? 0 then FInf neg else FNan
  else
    let bias := 2 ^ (ebits - 1) - 1 in
    let mant := if e =? 0 then m else m + 2 ^ mbits in
    let ex := (if e =? 0 then 1 else e) - bias - mbits in
    let mag := if 0 <=? ex then inject_Z (mant * 2 ^ ex)
               else Qmake mant (Z.to_pos (2 ^ (- ex))) in
    FNum (Qred (if neg then Qopp mag else mag)).

(** The value of one item read from its bytes; a pad byte gives none. *)
Definition value_of (c : code) (bs : bytes) : list pyval :=
  let u := le_int bs in
  match c with
  | Cx => []
  | Cbool => [PBool (negb (u =? 0))]
  | CB | CH | CI | CL | CQ => [PInt u]
  | Cb | Ch | Ci | Cl | Cq => [PInt (to_signed (8 * Z.of_nat (size c)) u)]
  | Cf => [PFloat (ieee_decode 8 23 u)]
  | Cd => [PFloat (ieee_decode 11 52 u)]
  end.

Fixpoint read_n (c : code) (n : nat) (off : nat) (buf : bytes) : list pyval :=
  match n with
  | O => []
  | S n' =>
      value_of c (firstn (size c) (skipn off buf))
        ++ read_n c n' (off + size c) buf
  end.

Fixpoint unpack_items (items : list (nat * code)) (off : nat) (buf : bytes)
  : list pyval :=
  match items with
  | [] => []
  | (n, c) :: rest =>
      let off' := align off (size c) in
      read_n c n off' buf ++ unpack_items rest (off' + n * size c) buf
  end.

(** [struct.unpack(fmt, buf)]: the buffer has exactly the size of the
    format, alignment gaps included. *)
Definition unpack (fmt : string) (buf : bytes) : result (list pyval) :=
  items <- parse fmt None ;;
  if (List.length buf =? size_items items 0)%nat
  then Ok (unpack_items items 0 buf)
  else Raise StructError.

End struct.

(** [(x,) = seq]: the sequence holds exactly one value. *)
Definition unpack1 {A} (l : list A) : result A :=
  match l with
  | [a] => Ok a
  | _ => Raise ValueError
  end.

(** [int.to_bytes(length, 'little', signed=True)]. *)
Fixpoint le_bytes (n : nat) (u : Z) : bytes :=
  match n with
  | O => []
  | S n' =>
      match Byte.of_N (Z.to_N (u mod 256)) with
      | Some b => b :: le_bytes n' (u / 256)
      | None => []
      end
  end.

Definition to_bytes_signed (length : nat) (v : Z) : result bytes :=
  let bits := 8 * Z.of_nat length in
  if (- 2 ^ (bits - 1) <=? v) && (v <? 2 ^ (bits - 1))
  then Ok (le_bytes length (v mod 2 ^ bits))
  else Raise OverflowError.

(** ** Numbers *)

(** [10 ** p]: an [int] for [p >= 0], a [float] otherwise; here its value. *)
Definition pow10 (p : Z) : Q :=
  if 0 <=? p then inject_Z (10 ^ p) else Qinv (inject_Z (10 ^ (- p))).

(** [int(x)]: truncation towards zero. *)
Definition py_int (q : Q) : Z := Z.quot (Qnum q) (Zpos (Qden q)).

(** [s * n] for a [str]. *)
Definition str_repeat (s : string) (n : Z) : string :=
  Nat.iter (Z.to_nat n) (String.append s) EmptyString.

(** [eval("0b" + digits)]: a binary literal needs one digit at least. *)
Fixpoint bin_digits (s : string) (acc : Z) : result Z :=
  match s with
  | EmptyString => Ok acc
  | String "0"%char rest => bin_digits rest (2 * acc)
  | String "1"%char rest => bin_digits rest (2 * acc + 1)
  | String _ _ => Raise SyntaxError
  end.

Definition eval_0b (digits : string) : result Z :=
  match digits with
  | EmptyString => Raise SyntaxError
  | _ => bin_digits digits 0
  end.

(** * formatter.py *)

(** [encode_FLOAT_ieee11073(value, precision)], without the debug print. *)
Definition encode_FLOAT_ieee11073 (value : Q) (precision : Z) : result bytes :=
  mant <- to_bytes_signed 3 (py_int (Qmult value (pow10 precision))) ;;
  expo <- (if (-128 <=? - precision) && (- precision <=? 127)
           then Ok (le_bytes 1 ((- precision) mod 256))
           else Raise StructError) ;;
  Ok (mant ++ expo).

Definition special_values_FLOAT : list (Z * string) :=
  [ (2 ^ 23 - 2, "+INFINITY");
    (2 ^ 23 - 1, "NaN");
    (- 2 ^ 23, "NRes");
    (- (2 ^ 23 - 1), "Reserved for future use");
    (- (2 ^ 23 - 2), "–INFINITY") ].

Fixpoint special_get (d : list (Z * string)) (k : Z) : option string :=
  match d with
  | [] => None
  | (k', v) :: d' => if k =? k' then Some v else special_get d' k
  end.

(** [decode_FLOAT_ieee11073(value)]. *)
Definition decode_FLOAT_ieee11073 (value : bytes) : result pyval :=
  unpacked <- struct.unpack "4b" value ;;
  match unpacked with
  | [_; _; PInt sign; PInt exponent] =>
      let _mantissa_bytes :=
        if 0 <=? sign then removelast value ++ [x00]
        else removelast value ++ [xff] in
      m <- struct.unpack "i" _mantissa_bytes ;;
      v <- unpack1 m ;;
      match v with
      | PInt mantissa =>
          match (if exponent =? 0
                 then special_get special_values_FLOAT mantissa
                 else None) with
          | Some label => Ok (PStr label)
          | None =>
              Ok (PFloat (FNum (Qred
                   (Qdiv (inject_Z mantissa) (Qdiv 1 (pow10 exponent))))))
          end
      | _ => Raise TypeError
      end
  | _ => Raise ValueError
  end.

(** [twos_comp(val, bits)]. *)
Definition twos_comp (val bits : Z) : Z :=
  let val := if negb (Z.land val (Z.shiftl 1 (bits - 1)) =? 0)
             then val - Z.shiftl 1 bits
             else val in
  Z.land val (2 ^ bits - 1).

(** [encode_SFLOAT_ieee11073(value, precision)], without the debug print. *)
Definition encode_SFLOAT_ieee11073 (value : Q) (precision : Z) : result bytes :=
  let val := py_int (Qmult value (pow10 precision)) in
  if negb (val <? 2 ^ 11) then Raise AssertionError
  else to_bytes_signed 2 (Z.shiftl precision 12 + twos_comp val 12).

(** [twos_comp_dec(val, bits)]. *)
Definition twos_comp_dec (val bits : Z) : Z :=
  if negb (Z.land val (Z.shiftl 1 (bits - 1)) =? 0)
  then val - Z.shiftl 1 bits
  else val.

Definition special_values_SFLOAT : list (Z * string) :=
  [ (2 ^ 11 - 2, "+INFINITY");
    (2 ^ 11 - 1, "NaN");
    (- 2 ^ 11, "NRes");
    (- (2 ^ 11 - 1), "Reserved for future use");
    (- (2 ^ 11 - 2), "–INFINITY") ].

(** [value[i]] on [bytes]. *)
Definition byte_at (value : bytes) (i : nat) : result Z :=
  match nth_error value i with
  | Some b => Ok (byte_val b)
  | None => Raise IndexError
  end.

(** [decode_SFLOAT_ieee11073(value)]. *)
Definition decode_SFLOAT_ieee11073 (value : bytes) : result pyval :=
  _bitmask_mant <- eval_0b (String.append (str_repeat "0" (16 - (0 + 12)))
                             (String.append (str_repeat "1" 12)
                                            (str_repeat "0" 0))) ;;
  hi <- byte_at value 1 ;;
  lo <- byte_at value 0 ;;
  let dec := Z.shiftl hi 8 + lo in
  let exponent := Z.shiftr dec 12 in
  let _mantissa_uint := Z.shiftr (Z.land dec _bitmask_mant) 0 in
  let mantissa := twos_comp_dec _mantissa_uint 12 in
  match (if exponent =? 0
         then special_get special_values_SFLOAT mantissa
         else None) with
  | Some label => Ok (PStr label)
  | None =>
      Ok (PFloat (FNum (Qred
           (Qdiv (inject_Z mantissa) (inject_Z (10 ^ exponent))))))
  end.

(** * utils.py *)

(** ** Python operators on the values *)

Definition fmul (a b : pyfloat) : pyfloat :=
  match a, b with
  | FNan, _ | _, FNan => FNan
  | FNum x, FNum y => FNum (Qred (Qmult x y))
  | FInf s, FNum y | FNum y, FInf s =>
      if Qeq_bool y 0 then FNan
      else FInf (xorb s (negb (Qle_bool 0 y)))
  | FInf s, FInf t => FInf (xorb s t)
  end.

Definition Z_of_bool (b : bool) : Z := if b then 1 else 0.

(** [a * b], for the right operands that the scaling uses: an [int] or a
    [float].  With a [float] operand the product is the exact one (see the
    conventions): its rounding, and the [OverflowError] of an [int] too
    large for a [float], are not modelled; the theorems on the scaling
    are stated on integers. *)
Definition py_mul (a b : pyval) : result pyval :=
  match a, b with
  | PInt x, PInt y => Ok (PInt (x * y))
  | PBool x, PInt y => Ok (PInt (Z_of_bool x * y))
  | PInt x, PFloat y => Ok (PFloat (fmul (FNum (inject_Z x)) y))
  | PBool x, PFloat y => Ok (PFloat (fmul (FNum (inject_Z (Z_of_bool x))) y))
  | PFloat x, PInt y => Ok (PFloat (fmul x (FNum (inject_Z y))))
  | PFloat x, PFloat y => Ok (PFloat (fmul x y))
  | PStr x, PInt y => Ok (PStr (str_repeat x y))
  | _, _ => Raise TypeError
  end.

(** [base ** e] for [int] operands: an [int] when [e >= 0], else a [float],
    given as the exact quotient. *)
Definition py_pow (base e : Z) : pyval :=
  if 0 <=? e then PInt (base ^ e)
  else PFloat (FNum (Qred (Qinv (inject_Z (base ^ (- e)))))).

(** The operand of [&] as an [int]; a [bool] is one. *)
Definition as_int (v : pyval) : result Z :=
  match v with
  | PInt z => Ok z
  | PBool b => Ok (Z_of_bool b)
  | _ => Raise TypeError
  end.

(** [str(v)] as far as it can be the key of an enumeration: the decimal
    digits of an [int], [True]/[False], a [str] itself.  The [repr] of a
    [float] is not modelled: it is taken to be no key of any map. *)
Definition py_str (v : pyval) : option string :=
  match v with
  | PInt z => Some (str_of_int z)
  | PBool true => Some "True"
  | PBool false => Some "False"
  | PStr s => Some s
  | PNone => Some "None"
  | _ => None
  end.

(** [bytes.decode("utf8")]: well-formed UTF-8 only.  A [str] is kept as its
    UTF-8 bytes, as the string literals of this file are. *)
Definition in_range (lo hi b : Z) : bool := (lo <=? b) && (b <=? hi).

Fixpoint utf8_valid (bs : list Z) : bool :=
  match bs with
  | [] => true
  | b0 :: r0 =>
      if b0 <=? 127 then utf8_valid r0 else
      match r0 with
      | [] => false
      | b1 :: r1 =>
          if in_range 194 223 b0 then in_range 128 191 b1 && utf8_valid r1 else
          match r1 with
          | [] => false
          | b2 :: r2 =>
              if in_range 224 239 b0 then
                in_range (if b0 =? 224 then 160 else 128)
                         (if b0 =? 237 then 159 else 191) b1
                && in_range 128 191 b2 && utf8_valid r2
              else
              match r2 with
              | [] => false
              | b3 :: r3 =>
                  in_range 240 244 b0
                  && in_range (if b0 =? 240 then 144 else 128)
                              (if b0 =? 244 then 143 else 191) b1
                  && in_range 128 191 b2 && in_range 128 191 b3
                  && utf8_valid r3
              end
          end
      end
  end.

Definition decode_utf8 (data : bytes) : result pyval :=
  if utf8_valid (map byte_val data)
  then Ok (PStr (string_of_list_byte data))
  else Raise UnicodeDecodeError.

(** ** Python list operations *)

(** [l.index(x)]. *)
Fixpoint list_index (x : string) (l : list string) : result nat :=
  match l with
  | [] => Raise ValueError
  | y :: l' =>
      if String.eqb x y then Ok O
      else i <- list_index x l' ;; Ok (S i)
  end.

(** [l.pop(i)] for its effect on the list, with [i] in range. *)
Definition list_pop {A} (i : nat) (l : list A) : list A :=
  firstn i l ++ skipn (S i) l.

(** [l.insert(i, x)]. *)
Definition list_insert {A} (i : nat) (x : A) (l : list A) : list A :=
  firstn i l ++ x :: skipn i l.

(** [list(d.values())[0]]. *)
Definition first_value {V} (d : list (string * V)) : result V :=
  match d with
  | [] => Raise IndexError
  | (_, v) :: _ => Ok v
  end.

Definition str_in (x : string) (l : list string) : bool :=
  existsb (String.eqb x) l.

Fixpoint mapM {A B} (f : A -> result B) (l : list A) : result (list B) :=
  match l with
  | [] => Ok []
  | a :: l' => b <- f a ;; bs <- mapM f l' ;; Ok (b :: bs)
  end.

Fixpoint foldM {A S} (f : S -> A -> result S) (l : list A) (s : S)
  : result S :=
  match l with
  | [] => Ok s
  | a :: l' => s' <- f s a ;; foldM f l' s'
  end.

(** ** The metadata model *)

(** [DATA_FMT]: the unpack code of each declared format. *)
Definition DATA_FMT : list (string * string) :=
  [ ("sint8", "b"); ("uint8", "B"); ("sint16", "h"); ("uint16", "H");
    ("uint24", "I"); ("sint32", "i"); ("uint32", "I"); ("uint40", "Q");
    ("uint48", "Q"); ("utf8s", "utf8"); ("8bit", "B"); ("16bit", "h");
    ("float64", "d"); ("variable", "X"); ("gatt_uuid", "X");
    ("boolean", "?"); ("32bit", "I"); ("FLOAT", "f"); ("24bit", "I");
    ("SFLOAT", "f"); ("sint24", "I"); ("nibble", "B"); ("2bit", "B");
    ("uint128", "2Q"); ("uint12", "H"); ("4bit", "B");
    ("characteristic", "X") ].

(** An ["Enumerations"] dictionary: the labels by key, and the dictionary
    under its ["Requires"] key when an enumeration had a [requires]
    attribute. *)
Record Keymap : Type := mkKeymap {
  labels : list (string * string);
  Requires : option (list (string * string))
}.

(** A [Bit] of a ["BitField"]: its [index] and [size] attributes (read
    with [int(...)] by the decoder, here already numbers) and its
    ["Enumerations"]. *)
Record Bit : Type := mkBit {
  index : Z;
  size : Z;
  bit_Enumerations : option Keymap
}.

(** One entry of [CHAR_XML.fields], as [_get_fields] fills it.  [Format]
    is the declared format; the parser stores [DATA_FMT[Format]] under
    ["Ctype"] when the table has the format, and no ["Ctype"] otherwise.
    [Requirement] holds the texts under the keys ["Requirement"],
    ["Requirement-1"], ... in their order. *)
Record Field : Type := mkField {
  Format : option string;
  Requirement : list string;
  Enumerations : option Keymap;
  BitField : option (list (string * Bit));
  Reference : option string;
  Quantity : option string;
  Unit : option string;
  Symbol : option string;
  Multiplier : option Z;
  DecimalExponent : option Z;
  BinaryExponent : option Z
}.

Definition Ctype (f : Field) : option string :=
  match Format f with
  | Some fmt => dict_get DATA_FMT fmt
  | None => None
  end.

Record CHAR_XML : Type := mkChar {
  name : string;
  fields : list (string * Field)
}.

(** ** Results *)

(** One entry of [_FIELDS_VALS]. *)
Record FieldVal : Type := mkFieldVal {
  fv_Quantity : option string;
  fv_Unit : option string;
  fv_Symbol : option string;
  fv_Value : option pyval
}.

Definition empty_val : FieldVal := mkFieldVal None None None None.

(** What [get_char_value] returns: [None] (it falls off the end), the
    dictionary of the fields, or the pair of it with [_FLAGS]. *)
Inductive retval : Type :=
| RNone
| RVals (vals : list (string * FieldVal))
| RValsFlags (vals : list (string * FieldVal)) (flags : pyval).

(** [struct.pack(fmt, v)] of one value, for whether it raises: the format
    takes exactly one value, an integer code takes an [int] in its range,
    a float code takes a number. *)
Definition pack_check (fmt : string) (v : pyval) : result unit :=
  items <- struct.parse fmt None ;;
  match filter (fun it => negb (Nat.eqb (fst it) 0))
               (filter (fun it => match snd it with
                                  | struct.Cx => false
                                  | _ => true
                                  end) items) with
  | [(1%nat, c)] =>
      let bits := 8 * Z.of_nat (struct.size c) in
      match c, v with
      | struct.Cbool, _ => Ok tt
      | (struct.Cf | struct.Cd), (PInt _ | PBool _ | PFloat _) => Ok tt
      | (struct.Cf | struct.Cd), _ => Raise StructError
      | (struct.CB | struct.CH | struct.CI | struct.CL | struct.CQ),
        (PInt _ | PBool _) =>
          z <- as_int v ;;
          if (0 <=? z) && (z <? 2 ^ bits) then Ok tt else Raise StructError
      | _, (PInt _ | PBool _) =>
          z <- as_int v ;;
          if (- 2 ^ (bits - 1) <=? z) && (z <? 2 ^ (bits - 1))
          then Ok tt else Raise StructError
      | _, _ => Raise StructError
      end
  | _ => Raise StructError
  end.

(** A call, with the positional arguments [args], of a function that has
    two required parameters: any other number of arguments is a
    [TypeError]. *)
Definition call2 {A B} (f : A -> A -> B) (args : list A) : result B :=
  match args with
  | [a; b] => Ok (f a b)
  | _ => Raise TypeError
  end.

(** [x >> n]. *)
Definition py_rshift (x n : Z) : result Z :=
  if n <? 0 then Raise ValueError else Ok (Z.shiftr x n).

(** [_unpack_data(ctype, data)]. *)
Definition _unpack_data (ctype : string) (data : bytes) : result pyval :=
  if String.eqb ctype "utf8" then decode_utf8 data
  else l <- struct.unpack ctype data ;; unpack1 l.

(** [_complete_bytes(self, bb)]: a module-level function with the two
    parameters [self] and [bb]. *)
Definition _complete_bytes {A} (self : A) (bb : bytes) : bytes :=
  let len_bytes := List.length bb in
  if (len_bytes mod 2 =? 0)%nat then bb else x00 :: bb.

(** The mask that [_autobitmask] and [_autobitmask_req] build as a binary
    literal and evaluate. *)
Definition bitmask (total_size index size : Z) : result Z :=
  eval_0b (String.append (str_repeat "0" (total_size - (index + size)))
            (String.append (str_repeat "1" size) (str_repeat "0" index))).

(** [_autobitmask(val, total_size, index, size, keymap)]. *)
Definition _autobitmask (val : pyval) (total_size index size : Z)
  (keymap : Keymap) : result pyval :=
  _bitmask <- bitmask total_size index size ;;
  v <- as_int val ;;
  key <- py_rshift (Z.land v _bitmask) index ;;
  let key_str := str_of_int key in
  mapped_val <- dict_item (labels keymap) key_str ;;
  Ok (PStr mapped_val).

(** [_autobitmask_req(val, total_size, index, size, keymap)], [keymap]
    being the ["Requires"] dictionary. *)
Definition _autobitmask_req (val : pyval) (total_size index size : Z)
  (keymap : list (string * string)) : result pyval :=
  _bitmask <- bitmask total_size index size ;;
  v <- as_int val ;;
  key <- py_rshift (Z.land v _bitmask) index ;;
  let key_str := str_of_int key in
  match dict_get keymap key_str with
  | Some mapped_val => Ok (PStr mapped_val)
  | None => Ok (PBool false)
  end.

Definition total_size_of (bitfield : list (string * Bit)) : Z :=
  fold_left (fun total bitf => total + size (snd bitf)) bitfield 0.

Definition bit_keymap (b : Bit) : result Keymap :=
  match bit_Enumerations b with
  | Some key_map => Ok key_map
  | None => Raise KeyError
  end.

Definition pydict (V : Type) := list (string * V).

(** The body that [_autoformat] runs for one field (the source has it
    twice, for all the fields and for [field_to_unpack]). *)
Definition autoformat_field (val : pyval)
  (acc : pydict (pydict pyval)) (field : string) (f : Field)
  : result (pydict (pydict pyval)) :=
  match Ctype f, BitField f with
  | Some _, Some bitfield =>
      let total_size := total_size_of bitfield in
      entry <- foldM (fun d bitf =>
                 key_map <- bit_keymap (snd bitf) ;;
                 v <- _autobitmask val total_size (index (snd bitf))
                        (size (snd bitf)) key_map ;;
                 Ok (dict_set d (fst bitf) v)) bitfield [] ;;
      Ok (dict_set acc field entry)
  | _, _ => Ok acc
  end.

(** [_autoformat(char, val, field_to_unpack=None)]; an empty name is as
    false as [None]. *)
Definition _autoformat (char : CHAR_XML) (val : pyval)
  (field_to_unpack : option string) : result (pydict (pydict pyval)) :=
  match field_to_unpack with
  | None | Some EmptyString =>
      foldM (fun acc fld => autoformat_field val acc (fst fld) (snd fld))
            (fields char) []
  | Some field =>
      f <- dict_item (fields char) field ;;
      autoformat_field val [] field f
  end.

(** [_autoformat_reqs(char, val)]. *)
Definition _autoformat_reqs (char : CHAR_XML) (val : pyval)
  : result (pydict (pydict pyval)) :=
  foldM (fun acc fld =>
    match Ctype (snd fld), BitField (snd fld) with
    | Some _, Some bitfield =>
        let total_size := total_size_of bitfield in
        entry <- foldM (fun d bitf =>
                   key_map <- bit_keymap (snd bitf) ;;
                   match Requires key_map with
                   | Some reqmap =>
                       v <- _autobitmask_req val total_size
                              (index (snd bitf)) (size (snd bitf)) reqmap ;;
                       Ok (dict_set d (fst bitf) v)
                   | None => Ok d
                   end) bitfield [] ;;
        Ok (dict_set acc (fst fld) entry)
    | _, _ => Ok acc
    end) (fields char) [].

(** [_get_req(char_field)]. *)
Definition _get_req (char_field : Field) : list string :=
  Requirement char_field.

(** The scaling of a raw value by the metadata [meta]: [Multiplier], then
    [DecimalExponent], then [BinaryExponent]. *)
Definition scale (meta : Field) (raw : pyval) : result pyval :=
  v <- match Multiplier meta with
       | Some m => py_mul raw (PInt m)
       | None => Ok raw
       end ;;
  v <- match DecimalExponent meta with
       | Some e => py_mul v (py_pow 10 e)
       | None => Ok v
       end ;;
  match BinaryExponent meta with
  | Some e => py_mul v (py_pow 2 e)
  | None => Ok v
  end.

(** The entry of [_FIELDS_VALS] with the unit metadata of [meta]. *)
Definition with_units (meta : Field) (value : pyval) : FieldVal :=
  mkFieldVal (Quantity meta) (Unit meta) (Symbol meta) (Some value).

Definition only_value (value : pyval) : FieldVal :=
  mkFieldVal None None None (Some value).

Definition keymap_truthy (k : Keymap) : bool :=
  match labels k, Requires k with
  | [], None => false
  | _, _ => true
  end.

(** [_get_single_field(char, val)]: the first field that has a ["Ctype"]
    decides. *)
Fixpoint single_field_loop (char : CHAR_XML) (val : bytes)
  (fs : list (string * Field)) : result retval :=
  match fs with
  | [] => Ok RNone
  | (field, f) :: rest =>
      match Ctype f with
      | None => single_field_loop char val rest
      | Some ctype =>
          match BitField f with
          | Some _ =>
              l <- struct.unpack ctype val ;;
              raw_data <- unpack1 l ;;
              a <- _autoformat char raw_data None ;;
              data <- first_value a ;;
              Ok (RVals [(field, only_value (PDict data))])
          | None =>
              let finish (data : pyval) :=
                formatted_value <- scale f data ;;
                Ok (RVals [(field, with_units f formatted_value)]) in
              match Enumerations f with
              | Some keymap =>
                  if keymap_truthy keymap then
                    l <- struct.unpack ctype val ;;
                    data <- unpack1 l ;;
                    match match py_str data with
                          | Some k => dict_get (labels keymap) k
                          | None => None
                          end with
                    | Some mapped_val =>
                        Ok (RVals [(field, only_value (PStr mapped_val))])
                    | None => finish data
                    end
                  else
                    l <- struct.unpack ctype val ;;
                    data <- unpack1 l ;;
                    finish data
              | None =>
                  data <- _unpack_data ctype val ;;
                  finish data
              end
          end
      end
  end.

Definition _get_single_field (char : CHAR_XML) (val : bytes) : result retval :=
  single_field_loop char val (fields char).

(** ** Several fields *)

(** What the first statements of [_get_multiple_fields] leave in
    [ctype_flag], [_FLAGS] and [_REQS]; [None] when the three stay unset
    (no ["Flags"] field, or one without ["Ctype"] or ["BitField"]). *)
Definition decode_flags (char : CHAR_XML) (val : bytes)
  : result (option (string * pydict pyval * pydict pyval)) :=
  match dict_get (fields char) "Flags" with
  | Some flags =>
      match Ctype flags, BitField flags with
      | Some ctype_flag, Some _ =>
          n <- struct.calcsize ctype_flag ;;
          l <- struct.unpack ctype_flag (firstn n val) ;;
          raw_data <- unpack1 l ;;
          a <- _autoformat char raw_data None ;;
          _FLAGS <- first_value a ;;
          r <- _autoformat_reqs char raw_data ;;
          _REQS <- first_value r ;;
          Ok (Some (ctype_flag, _FLAGS, _REQS))
      | _, _ => Ok None
      end
  | None => Ok None
  end.

(** [req in _REQS.values()]; [_REQS] may be [None], which has no
    [values]. *)
Definition req_in_values (_REQS : option (pydict pyval)) (req : string)
  : result bool :=
  match _REQS with
  | None => Raise AttributeError
  | Some d =>
      Ok (existsb (fun v => match v with
                            | PStr s => String.eqb req s
                            | _ => false
                            end) (dict_values d))
  end.

(** The loop that fills [_FIELDS_TO_READ] (the same in both branches). *)
Definition select_field (_REQS : option (pydict pyval))
  (_FIELDS_TO_READ : list string) (fld : string * Field)
  : result (list string) :=
  let field := fst fld in
  if negb (String.eqb field "Flags") then
    let field_req := _get_req (snd fld) in
    if str_in "Mandatory" field_req then Ok (_FIELDS_TO_READ ++ [field])
    else
      tests <- mapM (req_in_values _REQS) field_req ;;
      let _READ_FIELD := forallb (fun b => b) tests in
      if _READ_FIELD then Ok (_FIELDS_TO_READ ++ [field])
      else Ok _FIELDS_TO_READ
  else Ok _FIELDS_TO_READ.

Definition select_fields (char : CHAR_XML) (_REQS : option (pydict pyval))
  : result (list string) :=
  foldM (select_field _REQS) (fields char) [].

Section Decode.

(** [get_xml_char]: the characteristic documents on disk, parsed.  The
    file lookup and the XML parser are outside the decode engine. *)
Variable get_xml_char : string -> result CHAR_XML.

(** The state of the loop over [copy_FIELDS_TO_READ]. *)
Record expansion : Type := mkExpansion {
  _FIELDS_TO_READ : list string;
  ctype_global : string;
  _REFERENCE_FIELDS : pydict Field
}.

Definition add_ctype (f : Field) (ctype_global : string) : string :=
  match Ctype f with
  | Some ctype => String.append ctype_global ctype
  | None => ctype_global
  end.

(** The inner loop over [reference_char.fields]. *)
Definition expand_reference (reference_char : CHAR_XML)
  (_LIST_REFERENCES : list string) (st : expansion)
  : list string * expansion :=
  fold_left (fun a ref =>
    let ref_field := fst ref in
    (fst a ++ [ref_field],
     mkExpansion (_FIELDS_TO_READ (snd a))
                 (add_ctype (snd ref) (ctype_global (snd a)))
                 (dict_set (_REFERENCE_FIELDS (snd a)) ref_field (snd ref))))
    (fields reference_char) (_LIST_REFERENCES, st).

(** One turn of the loop over [copy_FIELDS_TO_READ]. *)
Definition expand_field (char : CHAR_XML) (st : expansion) (field : string)
  : result expansion :=
  f <- dict_item (fields char) field ;;
  let st := mkExpansion (_FIELDS_TO_READ st)
                        (add_ctype f (ctype_global st))
                        (_REFERENCE_FIELDS st) in
  match Reference f with
  | Some reference =>
      reference_char <- get_xml_char reference ;;
      let '(_LIST_REFERENCES, st) := expand_reference reference_char [] st in
      let _LIST_REFERENCES := rev _LIST_REFERENCES in
      char_index <- list_index field (_FIELDS_TO_READ st) ;;
      let popped := list_pop char_index (_FIELDS_TO_READ st) in
      Ok (mkExpansion
            (fold_left (fun l rf => list_insert char_index rf l)
                       _LIST_REFERENCES popped)
            (ctype_global st) (_REFERENCE_FIELDS st))
  | None => Ok st
  end.

Definition expand_fields (char : CHAR_XML) (selected : list string)
  (ctype_start : string) : result expansion :=
  foldM (expand_field char) selected (mkExpansion selected ctype_start []).

(** One turn of the loop that fills [_FIELDS_VALS].  [with_bitfields] is
    true in the branch of the flags, whose loop also decodes the
    bit fields of the native fields and packs those of the referenced
    fields. *)
Definition format_field (with_bitfields : bool) (char : CHAR_XML)
  (refs : pydict Field) (_RAW_VALS : pydict pyval)
  (_FIELDS_VALS : pydict FieldVal) (field : string)
  : result (pydict FieldVal) :=
  match dict_get (fields char) field with
  | Some meta =>
      raw <- dict_item _RAW_VALS field ;;
      formatted_value <- scale meta raw ;;
      formatted_value <-
        match with_bitfields, BitField meta with
        | true, Some _ =>
            a <- _autoformat char formatted_value (Some field) ;;
            d <- first_value a ;;
            Ok (PDict d)
        | _, _ => Ok formatted_value
        end ;;
      Ok (dict_set _FIELDS_VALS field (with_units meta formatted_value))
  | None =>
      match refs with
      | [] => Ok (dict_set _FIELDS_VALS field empty_val)
      | _ :: _ =>
          meta <- dict_item refs field ;;
          raw <- dict_item _RAW_VALS field ;;
          formatted_value <- scale meta raw ;;
          _ <- match with_bitfields, BitField meta with
               | true, Some _ =>
                   match Ctype meta with
                   | Some ctype => pack_check ctype formatted_value
                   | None => Raise KeyError
                   end
               | _, _ => Ok tt
               end ;;
          Ok (dict_set _FIELDS_VALS field (with_units meta formatted_value))
      end
  end.

Definition format_fields (with_bitfields : bool) (char : CHAR_XML)
  (st : expansion) (data : list pyval) : result (pydict FieldVal) :=
  let _RAW_VALS := dict_zip (_FIELDS_TO_READ st) data in
  foldM (format_field with_bitfields char (_REFERENCE_FIELDS st) _RAW_VALS)
        (_FIELDS_TO_READ st) [].

Definition returned (rtn_flags : bool) (vals : pydict FieldVal)
  (_FLAGS : pyval) : retval :=
  if rtn_flags then RValsFlags vals _FLAGS else RVals vals.

(** The branch [if _FLAGS:] of [_get_multiple_fields]. *)
Definition flags_branch (char : CHAR_XML) (val : bytes) (rtn_flags : bool)
  (ctype_flag : string) (_FLAGS _REQS : pydict pyval) : result retval :=
  selected <- select_fields char (Some _REQS) ;;
  match selected with
  | [] => Ok RNone
  | _ :: _ =>
      st <- expand_fields char selected ctype_flag ;;
      val <- call2 (@_complete_bytes bytes) [val] ;;
      l <- struct.unpack (ctype_global st) val ;;
      match l with
      | [] => Raise ValueError
      | flag :: data =>
          vals <- format_fields true char st data ;;
          Ok (returned rtn_flags vals (PDict _FLAGS))
      end
  end.

(** The branch [else:] of [_get_multiple_fields]. *)
Definition no_flags_branch (char : CHAR_XML) (val : bytes)
  (rtn_flags : bool) (_FLAGS : pyval) (_REQS : option (pydict pyval))
  : result retval :=
  selected <- select_fields char _REQS ;;
  match selected with
  | [] => Ok RNone
  | _ :: _ =>
      st <- expand_fields char selected "" ;;
      data <- struct.unpack (ctype_global st) val ;;
      vals <- format_fields false char st data ;;
      Ok (returned rtn_flags vals _FLAGS)
  end.

(** [_get_multiple_fields(char, val, rtn_flags)]. *)
Definition _get_multiple_fields (char : CHAR_XML) (val : bytes)
  (rtn_flags : bool) : result retval :=
  decoded <- decode_flags char val ;;
  match decoded with
  | Some (ctype_flag, (_ :: _) as _FLAGS, _REQS) =>
      flags_branch char val rtn_flags ctype_flag _FLAGS _REQS
  | Some (_, [], _REQS) =>
      no_flags_branch char val rtn_flags (PDict []) (Some _REQS)
  | None => no_flags_branch char val rtn_flags PNone None
  end.

(** [get_char_value(value, characteristic, rtn_flags)]; the
    characteristic is given by its name or as its parsed document. *)
Definition get_char_value (value : bytes)
  (characteristic : string + CHAR_XML) (rtn_flags : bool) : result retval :=
  characteristic <- match characteristic with
                    | inl name => get_xml_char name
                    | inr char => Ok char
                    end ;;
  if (List.length (fields characteristic) =? 1)%nat
  then _get_single_field characteristic value
  else _get_multiple_fields characteristic value rtn_flags.

End Decode.

(** * Reference readings and sample characteristics *)

(** ** Byte-level readings, stated without [struct] *)

(** The signed value of one byte. *)
Definition sint8 (b : byte) : Z :=
  if byte_val b <? 128 then byte_val b else byte_val b - 256.

(** The 24-bit two's-complement value of three little-endian bytes. *)
Definition sint24 (b0 b1 b2 : byte) : Z :=
  let u := byte_val b0 + 256 * byte_val b1 + 65536 * byte_val b2 in
  if u <? 2 ^ 23 then u else u - 2 ^ 24.

(** ** Sample metadata *)

(** A field with a format and requirement tags only. *)
Definition plain (fmt : string) (reqs : list string) : Field :=
  mkField (Some fmt) reqs None None None None None None None None None.

(** The enumerations of the bit of the flags: bit 0 set is labelled
    ["present"] and requires the tag ["T"]. *)
Definition bit0_keymap : Keymap :=
  mkKeymap [("0", "absent"); ("1", "present")] (Some [("1", "T")]).

(** A one-bit ["Flags"] field.  (The parser also stores the enumerations
    of the bits under the ["Enumerations"] key of the field itself.) *)
Definition flags_bit0 : Field :=
  mkField (Some "uint8") ["Mandatory"] (Some bit0_keymap)
    (Some [("Bit0", mkBit 0 1 (Some bit0_keymap))])
    None None None None None None None.

(** Flags, a mandatory [A] and a [B] that the tag ["T"] brings in. *)
Definition char_flags_A_B : CHAR_XML :=
  mkChar "Flags A B"
    [("Flags", flags_bit0);
     ("A", plain "uint8" ["Mandatory"]);
     ("B", plain "uint16" ["T"])].

(** No document can be loaded. *)
Definition no_documents (reference : string) : result CHAR_XML :=
  Raise (LoadError reference).

(** Two mandatory fields, a [uint24] and a [uint8], without flags. *)
Definition char_uint24_uint8 : CHAR_XML :=
  mkChar "uint24 uint8"
    [("A", plain "uint24" ["Mandatory"]);
     ("B", plain "uint8" ["Mandatory"])].

(** Two mandatory fields, a [uint8] and a [uint16], without flags. *)
Definition char_uint8_uint16 : CHAR_XML :=
  mkChar "uint8 uint16"
    [("A", plain "uint8" ["Mandatory"]);
     ("B", plain "uint16" ["Mandatory"])].

(** A single field that is a bit field of one bit whose enumeration only
    knows the key ["0"]. *)
Definition char_status_bit : CHAR_XML :=
  mkChar "Status"
    [("Status",
      mkField (Some "uint8") ["Mandatory"]
        (Some (mkKeymap [("0", "off")] None))
        (Some [("Bit0", mkBit 0 1 (Some (mkKeymap [("0", "off")] None)))])
        None None None None None None None)].

(** A single enumerated field whose enumeration only knows the key ["0"]. *)
Definition char_status_enum : CHAR_XML :=
  mkChar "Status"
    [("Status",
      mkField (Some "uint8") ["Mandatory"]
        (Some (mkKeymap [("0", "off")] None))
        None None None None None None None None)].

(** ** The selection rule *)

(** The tag [tag] is satisfied: it is one of the values of [_REQS]. *)
Definition satisfied (_REQS : pydict pyval) (tag : string) : Prop :=
  In (PStr tag) (dict_values _REQS).

Definition satisfiedb (_REQS : pydict pyval) (tag : string) : bool :=
  existsb (fun v => match v with
                    | PStr s => String.eqb tag s
                    | _ => false
                    end) (dict_values _REQS).

(** The field passes the rule of the selection loop. *)
Definition included (_REQS : pydict pyval) (fld : string * Field) : bool :=
  negb (String.eqb (fst fld) "Flags")
  && (str_in "Mandatory" (_get_req (snd fld))
      || forallb (satisfiedb _REQS) (_get_req (snd fld))).

(** The selection rule with the clause that a field without requirement
    tags is left out. *)
Definition selection_excluding_untagged (char : CHAR_XML)
  (_REQS : pydict pyval) : Prop :=
  exists selected,
    select_fields char (Some _REQS) = Ok selected
    /\ forall field f,
         In (field, f) (fields char) -> field <> "Flags" ->
         (In "Mandatory" (_get_req f) -> In field selected)
         /\ (~ In "Mandatory" (_get_req f) ->
             (In field selected
              <-> forall tag, In tag (_get_req f) -> satisfied _REQS tag))
         /\ (_get_req f = [] -> ~ In field selected).

(** Flags and a field [E] without requirement tags. *)
Definition char_flags_E : CHAR_XML :=
  mkChar "Flags E"
    [("Flags", flags_bit0);
     ("E", plain "uint8" [])].

(** ** Selection without a requirement set *)

(** [_REQS] stays [None]: there is no "Flags" field, or it has no
    "Ctype" or no "BitField". *)
Definition reqs_unset (char : CHAR_XML) : Prop :=
  match dict_get (fields char) "Flags" with
  | None => True
  | Some flags => Ctype flags = None \/ BitField flags = None
  end.


Definition needs_tagb (fld : string * Field) : bool :=
  negb (String.eqb (fst fld) "Flags")
  && negb (str_in "Mandatory" (_get_req (snd fld)))
  && match _get_req (snd fld) with [] => false | _ :: _ => true end.

Definition not_flags (fld : string * Field) : bool :=
  negb (String.eqb (fst fld) "Flags").






(** ** The expansion of the references *)

(** The ["Ctype"] entries of the fields of a document, appended to a
    format. *)
Definition add_ctypes (refs : list (string * Field)) (ctype_global : string)
  : string :=
  fold_left (fun c ref => add_ctype (snd ref) c) refs ctype_global.

(** The fields of a document, added to [_REFERENCE_FIELDS]. *)
Definition add_references (refs : list (string * Field))
  (_REFERENCE_FIELDS : pydict Field) : pydict Field :=
  fold_left (fun d ref => dict_set d (fst ref) (snd ref)) refs
            _REFERENCE_FIELDS.




(** ** The spliced sequence *)

(** The code of a field in the composite format. *)
Definition code_of (f : Field) : string :=
  match Ctype f with
  | Some ctype => ctype
  | None => ""
  end.

(** The codes of a sequence of fields, one after the other. *)
Definition codes (entries : list (string * Field)) : string :=
  fold_right (fun e s => String.append (code_of (snd e)) s) "" entries.

Section Spliced.

Variable get_xml_char : string -> result CHAR_XML.
Variable char : CHAR_XML.









End Spliced.


(** ** Sample references *)







(** * formatter.py: [SuperStruct] *)

Module SuperStruct.

(** [self.len_F], [self.len_SF] and [self.spec_formats]. *)
Definition len_F : nat := 4.
Definition len_SF : nat := 2.
Definition spec_formats : list ascii := ["F"%char; "S"%char].

(** [s in self.spec_formats]. *)
Definition is_spec (s : ascii) : bool := existsb (Ascii.eqb s) spec_formats.

(** [bb[index:index + n]]. *)
Definition slice (bb : bytes) (index n : nat) : bytes :=
  firstn n (skipn index bb).

(** [size_value += struct.calcsize(intermediate_fmt_string)] under
    [if intermediate_fmt_string:]. *)
Definition add_size (intermediate_fmt_string : string) (size_value : nat)
  : result nat :=
  match intermediate_fmt_string with
  | EmptyString => Ok size_value
  | _ =>
      n <- struct.calcsize intermediate_fmt_string ;;
      Ok (size_value + n)%nat
  end.

(** The loop of [_get_overall_size] over the characters of the format,
    then the statement after it.  (Its [index] is written and never
    read.) *)
Fixpoint overall_size_loop (fmt_string : string)
  (intermediate_fmt_string : string) (size_value : nat) : result nat :=
  match fmt_string with
  | EmptyString => add_size intermediate_fmt_string size_value
  | String s rest =>
      if is_spec s then
        size_value <- add_size intermediate_fmt_string size_value ;;
        let size_value :=
          if Ascii.eqb s "F" then (size_value + len_F)%nat
          else if Ascii.eqb s "S" then (size_value + len_SF)%nat
          else size_value in
        overall_size_loop rest "" size_value
      else
        overall_size_loop rest
          (String.append intermediate_fmt_string (String s "")) size_value
  end.

(** [_get_overall_size(self, fmt_string)]. *)
Definition _get_overall_size (fmt_string : string) : result nat :=
  overall_size_loop fmt_string "" 0.

(** [calcsize(self, fmt)]. *)
Definition calcsize (fmt : string) : result nat := _get_overall_size fmt.

(** The variables of the loop of [_get_all_index_bytes]. *)
Record walk : Type := mkWalk {
  intermediate_fmt_string : string;
  values : list pyval;
  index : nat;
  indexes : list nat
}.

(** The values of the run of plain codes collected so far, read with
    [struct] from [bb] at [index]. *)
Definition run_values (bb : bytes) (w : walk) : result (list pyval * nat) :=
  n <- struct.calcsize (intermediate_fmt_string w) ;;
  val <- struct.unpack (intermediate_fmt_string w) (slice bb (index w) n) ;;
  Ok (val, n).

(** One turn of the loop of [_get_all_index_bytes]. *)
Definition index_bytes_step (bb : bytes) (w : walk) (s : ascii)
  : result walk :=
  if is_spec s then
    w <- match intermediate_fmt_string w with
         | EmptyString => Ok w
         | _ =>
             '(val, n) <- run_values bb w ;;
             Ok (mkWalk (intermediate_fmt_string w) (values w ++ val)
                        (index w + n) (indexes w))
         end ;;
    let indexes := indexes w ++ [index w] in
    if Ascii.eqb s "F" then
      val_F <- decode_FLOAT_ieee11073 (slice bb (index w) len_F) ;;
      Ok (mkWalk "" (values w ++ [val_F]) (index w + len_F) indexes)
    else if Ascii.eqb s "S" then
      val_S <- decode_SFLOAT_ieee11073 (slice bb (index w) len_SF) ;;
      Ok (mkWalk "" (values w ++ [val_S]) (index w + len_SF) indexes)
    else Ok (mkWalk "" (values w) (index w) indexes)
  else
    Ok (mkWalk (String.append (intermediate_fmt_string w) (String s ""))
               (values w) (index w) (indexes w)).

Fixpoint index_bytes_loop (fmt_string : string) (bb : bytes) (w : walk)
  : result walk :=
  match fmt_string with
  | EmptyString => Ok w
  | String s rest =>
      w <- index_bytes_step bb w s ;;
      index_bytes_loop rest bb w
  end.

(** The statement after the loop: the last run of plain codes. *)
Definition last_run (bb : bytes) (w : walk) : result (list pyval) :=
  match intermediate_fmt_string w with
  | EmptyString => Ok (values w)
  | _ =>
      '(val, _) <- run_values bb w ;;
      Ok (values w ++ val)
  end.

(** [_get_all_index_bytes(self, fmt_string, bb)]. *)
Definition _get_all_index_bytes (fmt_string : string) (bb : bytes)
  : result (list pyval * list nat) :=
  expected_size <- _get_overall_size fmt_string ;;
  if negb (List.length bb =? expected_size)%nat then Raise AssertionError
  else
    w <- index_bytes_loop fmt_string bb (mkWalk "" [] 0 []) ;;
    values <- last_run bb w ;;
    Ok (values, indexes w).

(** [unpack(self, fmt, bb)]. *)
Definition unpack (fmt : string) (bb : bytes) : result (list pyval) :=
  if existsb is_spec (list_ascii_of_string fmt) then
    '(values, index) <- _get_all_index_bytes fmt bb ;;
    Ok values
  else struct.unpack fmt bb.

End SuperStruct.

(** The formats of the embedding: counts, white space, the codes of the
    [struct] model above and the two special codes.  The other characters
    that Python's [struct] knows (a byte-order prefix, [c], [s], [p], [e],
    [n], [N], [P]) are outside it. *)
Definition modelled_char (a : ascii) : bool :=
  struct.is_digit a || struct.is_space a || SuperStruct.is_spec a
  || match struct.code_of_ascii a with
     | Some _ => true
     | None => false
     end.

Definition modelled_format (fmt : string) : Prop :=
  forallb modelled_char (list_ascii_of_string fmt) = true.

(** The format has no [F] and no [S]. *)
Definition plain_format (fmt : string) : Prop :=
  existsb SuperStruct.is_spec (list_ascii_of_string fmt) = false.

(** The bytes that a special code takes and the decoder that reads them. *)
Definition special_size (s : ascii) : nat :=
  if Ascii.eqb s "F" then SuperStruct.len_F else SuperStruct.len_SF.

Definition decode_special (s : ascii) (value : bytes) : result pyval :=
  if Ascii.eqb s "F" then decode_FLOAT_ieee11073 value
  else decode_SFLOAT_ieee11073 value.

(** The variables of the walk when the buffer gets the bytes [before] in
    front, after the values [found] and the indexes [seen]. *)
Definition shift_walk (before : bytes) (found : list pyval) (seen : list nat)
  (w : SuperStruct.walk) : SuperStruct.walk :=
  SuperStruct.mkWalk
    (SuperStruct.intermediate_fmt_string w)
    (found ++ SuperStruct.values w)
    (List.length before + SuperStruct.index w)
    (seen ++ map (Nat.add (List.length before)) (SuperStruct.indexes w)).

(** ** Formats that [struct] refuses *)

(** A character that is no digit, no space and no format code. *)
Definition bad_char (a : ascii) : bool :=
  negb (struct.is_digit a) && negb (struct.is_space a)
  && match struct.code_of_ascii a with
     | Some _ => false
     | None => true
     end.

Fixpoint has_bad (s : string) : bool :=
  match s with
  | EmptyString => false
  | String a rest => bad_char a || has_bad rest
  end.

(** The declared formats whose code is no [struct] format: the text and
    the formats of unknown layout. *)
Definition unstructured_formats : list string :=
  ["utf8s"; "variable"; "gatt_uuid"; "characteristic"].

(** ** The numbers of binary64 *)

(** The rational is a number that a Python [float] holds exactly: an
    integer below 2^53 in size times a power of two in the range of
    binary64.  A Python [int] of that size is such a number too. *)
Definition binary64 (q : Q) : Prop :=
  exists m e : Z,
    Z.abs m < 2 ^ 53 /\ - 1074 <= e <= 971
    /\ Qeq q (Qmult (inject_Z m) (Qpower (2 # 1) e)).

(** ** The scaling of an integer *)

(** The [Multiplier] of the metadata, 1 when it has none. *)
Definition multiplier_of (meta : Field) : Z :=
  match Multiplier meta with
  | Some m => m
  | None => 1
  end.

(** The exponent under an optional entry, 0 when there is none. *)
Definition exponent_of (entry : option Z) : Z :=
  match entry with
  | Some e => e
  | None => 0
  end.

(** [raw] scaled by the metadata, as an integer. *)
Definition scaled (meta : Field) (raw : Z) : Z :=
  raw * multiplier_of meta * 10 ^ exponent_of (DecimalExponent meta)
  * 2 ^ exponent_of (BinaryExponent meta).



(** The integer codes of [struct], with whether they are signed. *)
Definition int_signed (c : struct.code) : option bool :=
  match c with
  | struct.Cb | struct.Ch | struct.Ci | struct.Cl | struct.Cq => Some true
  | struct.CB | struct.CH | struct.CI | struct.CL | struct.CQ => Some false
  | _ => None
  end.

(** The integer that the bytes [val] hold, little-endian. *)
Definition reading (signed : bool) (val : bytes) : Z :=
  if signed then struct.to_signed (8 * Z.of_nat (List.length val))
                                  (struct.le_int val)
  else struct.le_int val.

(** A characteristic of one field. *)
Definition one_field (name field : string) (f : Field) : CHAR_XML :=
  mkChar name [(field, f)].

(** A field of the metadata: a format, a multiplier and the two
    exponents. *)
Definition scaled_field (fmt : string) (m d b : option Z) : Field :=
  mkField (Some fmt) ["Mandatory"] None None None None None None m d b.


(** No flags, a mandatory text [Name] and a mandatory [Level]. *)
Definition char_name_level : CHAR_XML :=
  mkChar "Name Level"
    [("Name", plain "utf8s" ["Mandatory"]);
     ("Level", plain "uint8" ["Mandatory"])].

(** * utils.py: [mac_int_2_str] *)

(** The digit of [hex] for a value below 16. *)
Definition hex_digit (d : Z) : ascii :=
  match String.get (Z.to_nat d) "0123456789abcdef" with
  | Some c => c
  | None => "0"%char
  end.

(** The digits of a natural number in base 16, most significant first;
    [fuel] bounds their number. *)
Fixpoint hex_digits (fuel : nat) (n : Z) : string :=
  match fuel with
  | O => ""
  | S fuel' =>
      if n <? 16 then String (hex_digit n) ""
      else String.append (hex_digits fuel' (n / 16))
                         (String (hex_digit (n mod 16)) "")
  end.

(** [hex(n)]. *)
Definition hex (n : Z) : string :=
  String.append (if n <? 0 then "-0x" else "0x")
    (hex_digits (S (Z.to_nat (Z.log2 (Z.abs n)))) (Z.abs n)).

(** [s[n:]]. *)
Fixpoint str_drop (n : nat) (s : string) : string :=
  match n, s with
  | O, _ => s
  | S n', String _ rest => str_drop n' rest
  | S _, EmptyString => ""
  end.

(** [s.upper()] on ASCII text. *)
Definition upper_char (c : ascii) : ascii :=
  let n := nat_of_ascii c in
  if ((97 <=? n) && (n <=? 122))%nat then ascii_of_nat (n - 32) else c.

Fixpoint upper (s : string) : string :=
  match s with
  | EmptyString => ""
  | String c rest => String (upper_char c) (upper rest)
  end.

Fixpoint zeros (n : nat) : string :=
  match n with
  | O => ""
  | S n' => String "0" (zeros n')
  end.

(** [s.zfill(width)]: zeros on the left, after a leading sign. *)
Definition zfill (width : nat) (s : string) : string :=
  let fill := zeros (width - String.length s) in
  match s with
  | String c rest =>
      if (Ascii.eqb c "+" || Ascii.eqb c "-")%bool
      then String c (String.append fill rest)
      else String.append fill s
  | EmptyString => fill
  end.

(** [mac_int_2_str(mac)]. *)
Definition mac_int_2_str (mac : Z) : string :=
  let m := zfill 12 (upper (str_drop 2 (hex mac))) in
  String.concat ":"
    (map (fun i => substring i 2 m) [0; 2; 4; 6; 8; 10]%nat).

(** The upper-case hexadecimal digit of [n] at position [k], position 0
    being the least significant. *)
Definition HEX_at (n : Z) (k : nat) : ascii :=
  upper_char (hex_digit (n / 16 ^ Z.of_nat k mod 16)).

(** The [k] low digits of [n], most significant first. *)
Fixpoint fixed_HEX (k : nat) (n : Z) : string :=
  match k with
  | O => ""
  | S k' => String (HEX_at n k') (fixed_HEX k' n)
  end.

(** The two digits of the byte [k] of [n]. *)
Definition HEX_byte (n : Z) (k : nat) : string :=
  String (HEX_at n (2 * k + 1)) (String (HEX_at n (2 * k)) "").

(** * Properties *)

(** ** Bytes *)

Lemma byte_val_range (b : byte) : 0 <= byte_val b < 256.
Proof.
  unfold byte_val. pose proof (Byte.to_N_bounded b) as H. lia.
Qed.

Lemma unpack_4b (b0 b1 b2 b3 : byte) :
  struct.unpack "4b" [b0; b1; b2; b3]
  = Ok [PInt (sint8 b0); PInt (sint8 b1); PInt (sint8 b2); PInt (sint8 b3)].
Proof.
  unfold struct.unpack.
  change (struct.parse "4b" None) with (Ok [(4%nat, struct.Cb)]).
  cbn -[byte_val Z.add Z.mul Z.pow Z.ltb Z.sub].
  unfold struct.to_signed, sint8.
  rewrite ?Z.mul_0_r, ?Z.add_0_r. reflexivity.
Qed.

Lemma unpack_i (b0 b1 b2 b3 : byte) :
  struct.unpack "i" [b0; b1; b2; b3]
  = Ok [PInt (struct.to_signed 32
          (byte_val b0 + 256 * (byte_val b1 + 256 * (byte_val b2
             + 256 * byte_val b3))))].
Proof.
  unfold struct.unpack.
  change (struct.parse "i" None) with (Ok [(1%nat, struct.Ci)]).
  cbn -[byte_val Z.add Z.mul Z.pow Z.ltb Z.sub struct.to_signed].
  rewrite ?Z.mul_0_r, ?Z.add_0_r. reflexivity.
Qed.

Ltac split_ltb :=
  repeat match goal with
         | |- context [?a <? ?b] => destruct (Z.ltb_spec a b)
         end.

(** The padded mantissa bytes, read as a native [int], are the 24-bit
    two's-complement mantissa. *)
Lemma unpack_padded_mantissa (b0 b1 b2 pad : byte) :
  byte_val pad = (if 0 <=? sint8 b2 then 0 else 255) ->
  struct.unpack "i" [b0; b1; b2; pad] = Ok [PInt (sint24 b0 b1 b2)].
Proof.
  intros Hpad. rewrite unpack_i. do 3 f_equal.
  pose proof (byte_val_range b0) as R0.
  pose proof (byte_val_range b1) as R1.
  pose proof (byte_val_range b2) as R2.
  unfold struct.to_signed, sint24, sint8 in *. rewrite Hpad.
  change (2 ^ (32 - 1)) with 2147483648. change (2 ^ 32) with 4294967296.
  change (2 ^ 23) with 8388608. change (2 ^ 24) with 16777216.
  destruct (byte_val b2 <? 128) eqn:E2.
  - apply Z.ltb_lt in E2.
    replace (0 <=? byte_val b2) with true by (symmetry; apply Z.leb_le; lia).
    split_ltb; lia.
  - apply Z.ltb_ge in E2.
    replace (0 <=? byte_val b2 - 256) with false
      by (symmetry; apply Z.leb_gt; lia).
    split_ltb; lia.
Qed.

(** ** formatter.py *)

(** What [decode_FLOAT_ieee11073] computes on four bytes, in terms of the
    mantissa and the exponent that the bytes spell. *)
Lemma decode_FLOAT_eq (b0 b1 b2 b3 : byte) :
  decode_FLOAT_ieee11073 [b0; b1; b2; b3]
  = let mantissa := sint24 b0 b1 b2 in
    let exponent := sint8 b3 in
    match (if exponent =? 0
           then special_get special_values_FLOAT mantissa
           else None) with
    | Some label => Ok (PStr label)
    | None =>
        Ok (PFloat (FNum (Qred
             (Qdiv (inject_Z mantissa) (Qdiv 1 (pow10 exponent))))))
    end.
Proof.
  unfold decode_FLOAT_ieee11073.
  rewrite unpack_4b. cbn [bind removelast app].
  destruct (0 <=? sint8 b2) eqn:S.
  - rewrite (unpack_padded_mantissa b0 b1 b2 x00) by (rewrite S; reflexivity).
    reflexivity.
  - rewrite (unpack_padded_mantissa b0 b1 b2 xff) by (rewrite S; reflexivity).
    reflexivity.
Qed.

(** C9, amended.  A 4-byte input whose exponent byte is zero and whose
    three mantissa bytes spell, in 24-bit two's complement, one of the
    five reserved codes decodes to the label that the program has for
    that code and not to a number: 2^23-2 gives "+INFINITY", 2^23-1 gives
    "NaN", -2^23 gives "NRes", -(2^23-1) gives "Reserved for future use"
    and -(2^23-2) gives the text "INFINITY" after an en dash (U+2013). *)
Theorem decode_FLOAT_special (b0 b1 b2 b3 : byte) (label : string) :
  sint8 b3 = 0 ->
  In (sint24 b0 b1 b2, label)
     [ (2 ^ 23 - 2, "+INFINITY");
       (2 ^ 23 - 1, "NaN");
       (- 2 ^ 23, "NRes");
       (- (2 ^ 23 - 1), "Reserved for future use");
       (- (2 ^ 23 - 2), "–INFINITY") ] ->
  decode_FLOAT_ieee11073 [b0; b1; b2; b3] = Ok (PStr label).
Proof.
  intros E H. rewrite decode_FLOAT_eq. cbv zeta. rewrite E.
  cbn [In] in H.
  repeat (destruct H as [H | H]; [injection H as <- <-; reflexivity|]).
  contradiction.
Qed.

Lemma decode_FLOAT_special_witness :
  decode_FLOAT_ieee11073 [xff; xff; x7f; x00] = Ok (PStr "NaN").
Proof.
  apply (decode_FLOAT_special xff xff x7f x00 "NaN").
  - reflexivity.
  - right. left. reflexivity.
Defined.

(** C9, as stated, fails on two of the five codes.  The bytes 01 00 80 00
    have a zero exponent and the mantissa -(2^23-1): the label returned
    is "Reserved for future use", not "Reserved".  The bytes 02 00 80 00
    have a zero exponent and the mantissa -(2^23-2): the label returned
    starts with an en dash (U+2013), not with the minus sign (U+2212) of
    the label "−INFINITY". *)
Lemma decode_FLOAT_labels_differ :
  (sint8 x00 = 0
   /\ sint24 x01 x00 x80 = - (2 ^ 23 - 1)
   /\ decode_FLOAT_ieee11073 [x01; x00; x80; x00]
      = Ok (PStr "Reserved for future use")
   /\ decode_FLOAT_ieee11073 [x01; x00; x80; x00] <> Ok (PStr "Reserved"))
  /\ (sint24 x02 x00 x80 = - (2 ^ 23 - 2)
      /\ decode_FLOAT_ieee11073 [x02; x00; x80; x00] = Ok (PStr "–INFINITY")
      /\ decode_FLOAT_ieee11073 [x02; x00; x80; x00]
         <> Ok (PStr "−INFINITY")).
Proof.
  assert (R : decode_FLOAT_ieee11073 [x01; x00; x80; x00]
              = Ok (PStr "Reserved for future use")) by reflexivity.
  assert (M : decode_FLOAT_ieee11073 [x02; x00; x80; x00]
              = Ok (PStr "–INFINITY")) by reflexivity.
  repeat split; try reflexivity.
  - rewrite R. discriminate.
  - rewrite M. discriminate.
Qed.

Lemma land_sign_bit12 (u : Z) :
  0 <= u < 4096 -> (Z.land u 2048 =? 0) = (u <? 2048).
Proof.
  intros R.
  assert (A : forallb (fun n => Bool.eqb (Z.land (Z.of_nat n) 2048 =? 0)
                                         (Z.of_nat n <? 2048))
                      (seq 0 4096) = true) by (vm_compute; reflexivity).
  rewrite forallb_forall in A. specialize (A (Z.to_nat u)).
  rewrite Z2Nat.id in A by lia. apply Bool.eqb_prop, A, in_seq. lia.
Qed.

(** What [decode_SFLOAT_ieee11073] computes on two bytes: the exponent is
    the high nibble as it stands, the mantissa is the low 12 bits in two's
    complement, and the number is the mantissa divided by ten to the
    exponent. *)
Lemma decode_SFLOAT_eq (lo hi : byte) :
  decode_SFLOAT_ieee11073 [lo; hi]
  = let dec := 256 * byte_val hi + byte_val lo in
    let exponent := dec / 4096 in
    let mantissa := if dec mod 4096 <? 2048 then dec mod 4096
                    else dec mod 4096 - 4096 in
    match (if exponent =? 0
           then special_get special_values_SFLOAT mantissa
           else None) with
    | Some label => Ok (PStr label)
    | None =>
        Ok (PFloat (FNum (Qred
             (Qdiv (inject_Z mantissa) (inject_Z (10 ^ exponent))))))
    end.
Proof.
  unfold decode_SFLOAT_ieee11073.
  change (eval_0b _) with (Ok (Z.ones 12)).
  cbn [bind byte_at nth_error]. cbv zeta.
  rewrite Z.shiftl_mul_pow2, Z.shiftr_div_pow2, Z.land_ones, Z.shiftr_0_r
    by lia.
  change (2 ^ 8) with 256. change (2 ^ 12) with 4096.
  replace (byte_val hi * 256 + byte_val lo)
    with (256 * byte_val hi + byte_val lo) by lia.
  unfold twos_comp_dec.
  change (Z.shiftl 1 (12 - 1)) with 2048. change (Z.shiftl 1 12) with 4096.
  rewrite land_sign_bit12 by (apply Z.mod_pos_bound; lia).
  destruct ((256 * byte_val hi + byte_val lo) mod 4096 <? 2048); reflexivity.
Qed.

(** C4.  [decode_SFLOAT_ieee11073] on the bytes 01 10 (exponent nibble 1,
    mantissa 1): the program divides the mantissa by ten to the unsigned
    nibble and returns 1/10, where mantissa x 10^exponent is 10; on the
    bytes 01 F0 (exponent nibble 15, which is -1 in two's complement) it
    returns 10^-15, where mantissa x 10^exponent is 1/10. *)
Theorem decode_SFLOAT_divides_by_unsigned_exponent :
  decode_SFLOAT_ieee11073 [x01; x10] = Ok (PFloat (FNum (1 # 10)))
  /\ ~ Qeq (1 # 10) (Qmult (inject_Z 1) (pow10 1))
  /\ decode_SFLOAT_ieee11073 [x01; xf0]
     = Ok (PFloat (FNum (1 # 1000000000000000)))
  /\ ~ Qeq (1 # 1000000000000000) (Qmult (inject_Z 1) (pow10 (-1))).
Proof.
  repeat split; try reflexivity; intros H; vm_compute in H; discriminate H.
Qed.

(** C6.  [encode_SFLOAT_ieee11073(-5000, 0)]: the scaled mantissa -5000
    does not fit in 12 bits, yet the assertion only bounds it from above
    and the call returns the two bytes 78 0C, which decode to -904. *)
Theorem encode_SFLOAT_accepts_negative_overflow :
  encode_SFLOAT_ieee11073 (inject_Z (-5000)) 0 = Ok [x78; x0c]
  /\ decode_SFLOAT_ieee11073 [x78; x0c] = Ok (PFloat (FNum (inject_Z (-904))))
  /\ encode_SFLOAT_ieee11073 (inject_Z 5000) 0 = Raise AssertionError
  /\ encode_FLOAT_ieee11073 (inject_Z (-2 ^ 23 - 1)) 0 = Raise OverflowError.
Proof.
  repeat split; reflexivity.
Qed.

(** C5.  [DATA_FMT] gives the declared formats uint24 and sint24 the
    4-byte code "I": a blob of 3 + 1 bytes for a uint24 and a uint8 is
    refused, and 4 bytes are read for the uint24 field when 5 bytes are
    given.  A uint8 followed by a uint16 needs 4 bytes, of which the second
    is skipped as alignment padding. *)
Theorem uint24_unpacks_four_bytes :
  Ctype (plain "uint24" []) = Some "I"
  /\ Ctype (plain "sint24" []) = Some "I"
  /\ struct.calcsize "I" = Ok 4%nat
  /\ get_char_value no_documents [x01; x02; x03; x07]
       (inr char_uint24_uint8) false
     = Raise StructError
  /\ get_char_value no_documents [x01; x02; x03; x07; x09]
       (inr char_uint24_uint8) false
     = Ok (RVals [("A", only_value (PInt 117637633));
                  ("B", only_value (PInt 9))])
  /\ get_char_value no_documents [x07; x34; x12]
       (inr char_uint8_uint16) false
     = Raise StructError
  /\ get_char_value no_documents [x07; xaa; x34; x12]
       (inr char_uint8_uint16) false
     = Ok (RVals [("A", only_value (PInt 7));
                  ("B", only_value (PInt 4660))]).
Proof.
  repeat split; reflexivity.
Qed.

(** C7.  A single bit field whose enumeration has the key "0" only: the
    byte 01 extracts the key 1, and the decode raises [KeyError] instead
    of returning the integer; the same miss on an ordinary enumerated
    field returns the integer. *)
Theorem bitfield_enumeration_miss_raises :
  get_char_value no_documents [x01] (inr char_status_bit) false
  = Raise KeyError
  /\ get_char_value no_documents [x00] (inr char_status_bit) false
     = Ok (RVals [("Status", only_value (PDict [("Bit0", PStr "off")]))])
  /\ get_char_value no_documents [x01] (inr char_status_enum) false
     = Ok (RVals [("Status", only_value (PInt 1))]).
Proof.
  repeat split; reflexivity.
Qed.

(** C1.  Flags, a mandatory [A] and a [B] under the tag "T": with the
    Flags byte 01 the fields [A] and [B] are selected, with the Flags byte
    00 the field [A] alone, and in both decodes the call
    [_complete_bytes(val)] raises [TypeError] before anything is
    unpacked. *)
Theorem flags_decode_raises_TypeError :
  (r <- decode_flags char_flags_A_B [x01; x05; x34; x12] ;;
   match r with
   | Some (_, _, _REQS) => select_fields char_flags_A_B (Some _REQS)
   | None => Ok []
   end) = Ok ["A"; "B"]
  /\ get_char_value no_documents [x01; x05; x34; x12]
       (inr char_flags_A_B) false
     = Raise TypeError
  /\ (r <- decode_flags char_flags_A_B [x00; x05] ;;
      match r with
      | Some (_, _, _REQS) => select_fields char_flags_A_B (Some _REQS)
      | None => Ok []
      end) = Ok ["A"]
  /\ get_char_value no_documents [x00; x05] (inr char_flags_A_B) false
     = Raise TypeError.
Proof.
  repeat split; reflexivity.
Qed.

(** ** The selection loop *)

Lemma str_in_In (x : string) (l : list string) :
  str_in x l = true <-> In x l.
Proof.
  unfold str_in. rewrite existsb_exists. split.
  - intros [y [Hy E]]. apply String.eqb_eq in E. now subst.
  - intros H. exists x. split; [assumption | apply String.eqb_refl].
Qed.

Lemma satisfiedb_spec (_REQS : pydict pyval) (tag : string) :
  satisfiedb _REQS tag = true <-> satisfied _REQS tag.
Proof.
  unfold satisfiedb, satisfied. rewrite existsb_exists. split.
  - intros [v [Hv E]]. destruct v; try discriminate.
    apply String.eqb_eq in E. now subst.
  - intros H. exists (PStr tag). split; [assumption | apply String.eqb_refl].
Qed.

Lemma mapM_req_in_values (_REQS : pydict pyval) (reqs : list string) :
  mapM (req_in_values (Some _REQS)) reqs = Ok (map (satisfiedb _REQS) reqs).
Proof.
  induction reqs as [| r reqs IH]; [reflexivity |].
  cbn [mapM map]. rewrite IH. reflexivity.
Qed.

Lemma forallb_id_map {A} (p : A -> bool) (l : list A) :
  forallb (fun b => b) (map p l) = forallb p l.
Proof.
  induction l as [| a l IH]; [reflexivity |].
  cbn. now rewrite IH.
Qed.

(** With [_REQS] a dictionary, one turn of the loop appends the field or
    not, by [included]. *)
Lemma select_field_included (_REQS : pydict pyval) (acc : list string)
  (fld : string * Field) :
  select_field (Some _REQS) acc fld
  = Ok (if included _REQS fld then acc ++ [fst fld] else acc).
Proof.
  unfold select_field, included.
  destruct (String.eqb (fst fld) "Flags"); [reflexivity |].
  cbn [negb andb].
  destruct (str_in "Mandatory" (_get_req (snd fld))); [reflexivity |].
  rewrite mapM_req_in_values. cbn [bind orb].
  rewrite forallb_id_map.
  destruct (forallb (satisfiedb _REQS) (_get_req (snd fld))); reflexivity.
Qed.

Lemma select_loop_filter (_REQS : pydict pyval)
  (l : list (string * Field)) (acc : list string) :
  foldM (select_field (Some _REQS)) l acc
  = Ok (acc ++ map fst (filter (included _REQS) l)).
Proof.
  revert acc. induction l as [| fld l IH]; intros acc.
  - cbn. now rewrite app_nil_r.
  - cbn [foldM filter]. rewrite select_field_included. cbn [bind].
    rewrite IH. destruct (included _REQS fld); [| reflexivity].
    cbn [map]. now rewrite <- app_assoc.
Qed.

(** The selection in the branch of the flags never raises: it is the
    filter of the declared fields, in their order. *)
Lemma select_fields_filter (char : CHAR_XML) (_REQS : pydict pyval) :
  select_fields char (Some _REQS)
  = Ok (map fst (filter (included _REQS) (fields char))).
Proof.
  unfold select_fields. now rewrite select_loop_filter.
Qed.

Lemma keys_unique {V} (d : list (string * V)) (k : string) (v v' : V) :
  NoDup (dict_keys d) -> In (k, v) d -> In (k, v') d -> v = v'.
Proof.
  unfold dict_keys. induction d as [| [k0 v0] d IH]; intros N H H'.
  - contradiction.
  - cbn in N. inversion N as [| ? ? Hnot N']; subst.
    destruct H as [H | H], H' as [H' | H'].
    + congruence.
    + injection H as -> ->. exfalso. apply Hnot.
      change k with (fst (k, v')). now apply in_map.
    + injection H' as -> ->. exfalso. apply Hnot.
      change k with (fst (k, v)). now apply in_map.
    + now apply IH.
Qed.

Lemma in_selected (_REQS : pydict pyval) (l : list (string * Field))
  (field : string) (f : Field) :
  NoDup (dict_keys l) -> In (field, f) l ->
  In field (map fst (filter (included _REQS) l))
  <-> included _REQS (field, f) = true.
Proof.
  intros N H. rewrite in_map_iff. split.
  - intros [[k f'] [E H']]. cbn in E. subst k.
    apply filter_In in H'. destruct H' as [H' I].
    now rewrite (keys_unique l field f f' N H H').
  - intros I. exists (field, f). split; [reflexivity |].
    apply filter_In. now split.
Qed.

(** C3, amended.  In the selection with a decoded Flags value, a field
    other than "Flags" is selected when one of its requirement tags is
    "Mandatory"; otherwise it is selected if and only if all its tags are
    among the satisfied ones; so a field without any requirement tag is
    selected. *)
Theorem selection_rule (char : CHAR_XML) (_REQS : pydict pyval) :
  NoDup (dict_keys (fields char)) ->
  exists selected,
    select_fields char (Some _REQS) = Ok selected
    /\ forall field f,
         In (field, f) (fields char) -> field <> "Flags" ->
         (In "Mandatory" (_get_req f) -> In field selected)
         /\ (~ In "Mandatory" (_get_req f) ->
             (In field selected
              <-> forall tag, In tag (_get_req f) -> satisfied _REQS tag))
         /\ (_get_req f = [] -> In field selected).
Proof.
  intros N. eexists. split; [apply select_fields_filter |].
  intros field f H NF.
  rewrite (in_selected _REQS _ field f N H).
  unfold included. cbn [fst snd].
  apply String.eqb_neq in NF. rewrite NF. cbn [negb andb].
  repeat split.
  - intros M. apply str_in_In in M. now rewrite M.
  - intros A. apply orb_prop in A. destruct A as [A | A].
    + apply str_in_In in A. contradiction.
    + intros tag Ht. apply satisfiedb_spec.
      rewrite forallb_forall in A. now apply A.
  - intros A. apply orb_true_intro. right. apply forallb_forall.
    intros tag Ht. apply satisfiedb_spec. now apply A.
  - intros E. rewrite E. apply orb_true_r.
Qed.

Lemma selection_rule_witness :
  exists selected,
    select_fields char_flags_A_B (Some [("Bit0", PStr "T")]) = Ok selected
    /\ forall field f,
         In (field, f) (fields char_flags_A_B) -> field <> "Flags" ->
         (In "Mandatory" (_get_req f) -> In field selected)
         /\ (~ In "Mandatory" (_get_req f) ->
             (In field selected
              <-> forall tag, In tag (_get_req f) ->
                    satisfied [("Bit0", PStr "T")] tag))
         /\ (_get_req f = [] -> In field selected).
Proof.
  apply (selection_rule char_flags_A_B [("Bit0", PStr "T")]).
  repeat constructor; cbn; intuition discriminate.
Defined.

(** C3, as stated, fails: the field [E] has no requirement tag and is
    selected. *)
Lemma selection_includes_untagged :
  ~ selection_excluding_untagged char_flags_E [("Bit0", PStr "T")].
Proof.
  intros [selected [S K]].
  change (Ok ["E"] = Ok selected) in S. injection S as <-.
  destruct (K "E" (plain "uint8" [])) as [_ [_ X]].
  - right. left. reflexivity.
  - discriminate.
  - apply X; [reflexivity | left; reflexivity].
Qed.

(** ** The selection when [_REQS] is [None] *)

Lemma decode_flags_unset (char : CHAR_XML) (val : bytes) :
  reqs_unset char -> decode_flags char val = Ok None.
Proof.
  unfold reqs_unset, decode_flags.
  destruct (dict_get (fields char) "Flags") as [flags |]; [| reflexivity].
  intros [H | H]; rewrite H; [reflexivity |].
  destruct (Ctype flags); reflexivity.
Qed.

Lemma select_field_None (acc : list string) (fld : string * Field) :
  select_field None acc fld
  = if needs_tagb fld then Raise AttributeError
    else Ok (if not_flags fld then acc ++ [fst fld] else acc).
Proof.
  unfold select_field, needs_tagb, not_flags.
  destruct (String.eqb (fst fld) "Flags"); [reflexivity |].
  cbn [negb andb].
  destruct (str_in "Mandatory" (_get_req (snd fld))); [reflexivity |].
  destruct (_get_req (snd fld)); reflexivity.
Qed.

Lemma select_loop_None (l : list (string * Field)) (acc : list string) :
  foldM (select_field None) l acc
  = if existsb needs_tagb l then Raise AttributeError
    else Ok (acc ++ map fst (filter not_flags l)).
Proof.
  revert acc. induction l as [| fld l IH]; intros acc.
  - cbn. now rewrite app_nil_r.
  - cbn [foldM existsb filter]. rewrite select_field_None.
    destruct (needs_tagb fld); [reflexivity |].
    cbn [bind orb]. rewrite IH.
    destruct (existsb needs_tagb l); [reflexivity |].
    destruct (not_flags fld); [| reflexivity].
    cbn [map]. now rewrite <- app_assoc.
Qed.


Lemma multiple_fields_unset (get_xml_char : string -> result CHAR_XML)
  (char : CHAR_XML) (val : bytes) (rtn_flags : bool) :
  reqs_unset char ->
  _get_multiple_fields get_xml_char char val rtn_flags
  = no_flags_branch get_xml_char char val rtn_flags PNone None.
Proof.
  intros U. unfold _get_multiple_fields.
  now rewrite (decode_flags_unset char val U).
Qed.

(** *** The selection when the flags decode to no label *)










(** ** The loop over the selected fields *)

Lemma list_index_split (x : string) (l : list string) :
  In x l ->
  exists l1 l2,
    l = l1 ++ x :: l2 /\ ~ In x l1 /\ list_index x l = Ok (List.length l1).
Proof.
  induction l as [| y l IH]; intros H; [contradiction |].
  cbn [list_index]. destruct (String.eqb x y) eqn:E.
  - apply String.eqb_eq in E. subst y.
    exists [], l. repeat split. intros [].
  - apply String.eqb_neq in E. destruct H as [H | H]; [congruence |].
    destruct (IH H) as [l1 [l2 [-> [N I]]]].
    exists (y :: l1), l2. repeat split.
    + intros [C | C]; [congruence | contradiction].
    + rewrite I. reflexivity.
Qed.

Lemma list_pop_middle {A} (l1 : list A) (x : A) (l2 : list A) :
  list_pop (List.length l1) (l1 ++ x :: l2) = l1 ++ l2.
Proof.
  unfold list_pop. induction l1 as [| a l1 IH]; [reflexivity |].
  cbn [List.length app firstn skipn] in *. now rewrite IH.
Qed.

Lemma list_insert_middle {A} (l1 : list A) (x : A) (l2 : list A) :
  list_insert (List.length l1) x (l1 ++ l2) = l1 ++ x :: l2.
Proof.
  unfold list_insert. induction l1 as [| a l1 IH].
  - destruct l2; reflexivity.
  - cbn [List.length app firstn skipn] in *. now rewrite IH.
Qed.

(** Inserting the reversed names one by one at the same index puts them,
    in their order, at that index. *)
Lemma insert_reversed (l1 l2 names : list string) :
  fold_left (fun l rf => list_insert (List.length l1) rf l) (rev names)
            (l1 ++ l2)
  = l1 ++ names ++ l2.
Proof.
  induction names as [| a names IH]; [reflexivity |].
  cbn [rev]. rewrite fold_left_app. cbn [fold_left]. rewrite IH.
  apply list_insert_middle.
Qed.

Lemma expand_reference_eq (reference_char : CHAR_XML)
  (names : list string) (st : expansion) :
  expand_reference reference_char names st
  = (names ++ dict_keys (fields reference_char),
     mkExpansion (_FIELDS_TO_READ st)
       (add_ctypes (fields reference_char) (ctype_global st))
       (add_references (fields reference_char) (_REFERENCE_FIELDS st))).
Proof.
  unfold expand_reference, add_ctypes, add_references, dict_keys.
  destruct st as [l c d]. cbn [_FIELDS_TO_READ ctype_global _REFERENCE_FIELDS].
  revert names c d.
  induction (fields reference_char) as [| ref refs IH]; intros names c d.
  - cbn. now rewrite app_nil_r.
  - cbn [fold_left map]. cbn [fst snd _FIELDS_TO_READ ctype_global
                               _REFERENCE_FIELDS].
    rewrite IH. now rewrite <- app_assoc.
Qed.

(** One turn of the loop, when the field sits in [_FIELDS_TO_READ] after
    [l1]: it stays when it has no reference, and the names of the document
    take its place when it has one. *)
Lemma expand_field_at (get_xml_char : string -> result CHAR_XML)
  (char : CHAR_XML) (field : string) (f : Field)
  (l1 l2 : list string) (c : string) (d : pydict Field) :
  dict_get (fields char) field = Some f ->
  ~ In field l1 ->
  expand_field get_xml_char char (mkExpansion (l1 ++ field :: l2) c d) field
  = match Reference f with
    | None => Ok (mkExpansion (l1 ++ field :: l2) (add_ctype f c) d)
    | Some reference =>
        reference_char <- get_xml_char reference ;;
        Ok (mkExpansion
              (l1 ++ dict_keys (fields reference_char) ++ l2)
              (add_ctypes (fields reference_char) (add_ctype f c))
              (add_references (fields reference_char) d))
    end.
Proof.
  intros G N. unfold expand_field, dict_item. rewrite G. cbn [bind].
  cbn [_FIELDS_TO_READ ctype_global _REFERENCE_FIELDS].
  destruct (Reference f) as [reference |]; [| reflexivity].
  destruct (get_xml_char reference) as [reference_char | e]; [| reflexivity].
  cbn [bind]. rewrite expand_reference_eq.
  cbn [_FIELDS_TO_READ ctype_global _REFERENCE_FIELDS app].
  destruct (list_index_split field (l1 ++ field :: l2)) as [k1 [k2 [E [N' I]]]].
  { apply in_or_app. right. left. reflexivity. }
  assert (K : k1 = l1 /\ k2 = l2).
  { clear I. revert k1 E N'. induction l1 as [| a l1 IH]; intros k1 E N'.
    - destruct k1 as [| b k1].
      + cbn in E. injection E as <-. now split.
      + cbn in E. injection E as <- _. exfalso. apply N'. now left.
    - destruct k1 as [| b k1].
      + cbn in E. injection E as -> _. exfalso. apply N. now left.
      + cbn in E. injection E as <- E.
        destruct (IH (fun H => N (or_intror H)) k1 E
                     (fun H => N' (or_intror H))) as [-> ->].
        now split. }
  destruct K as [-> ->]. rewrite I. cbn [bind].
  rewrite list_pop_middle, insert_reversed. reflexivity.
Qed.

Lemma dict_get_of_in {V} (d : list (string * V)) (k : string) (v : V) :
  In (k, v) d -> exists v', dict_get d k = Some v'.
Proof.
  induction d as [| [k0 v0] d IH]; intros H; [contradiction |].
  cbn [dict_get]. destruct (String.eqb k k0) eqn:E; [now eexists |].
  destruct H as [H | H]; [| now apply IH].
  injection H as -> ->. rewrite String.eqb_refl in E. discriminate E.
Qed.


(** The loop over the selected fields fails only when a document fails to
    load: the name it looks up is always still in the list. *)
Lemma expand_loop_total (get_xml_char : string -> result CHAR_XML)
  (char : CHAR_XML) (rest : list string) :
  forall st : expansion,
    (forall x, In x rest -> exists f, dict_get (fields char) x = Some f) ->
    (forall x, count_occ string_dec rest x
               <= count_occ string_dec (_FIELDS_TO_READ st) x)%nat ->
    (exists st', foldM (expand_field get_xml_char char) rest st = Ok st')
    \/ (exists field f reference e,
          In field rest
          /\ dict_get (fields char) field = Some f
          /\ Reference f = Some reference
          /\ get_xml_char reference = Raise e
          /\ foldM (expand_field get_xml_char char) rest st = Raise e).
Proof.
  induction rest as [| field rest IH]; intros [l c d] K C.
  - left. eexists. reflexivity.
  - cbn [_FIELDS_TO_READ] in C.
    destruct (K field (or_introl eq_refl)) as [f G].
    assert (I : In field l).
    { apply (count_occ_In string_dec). specialize (C field).
      rewrite count_occ_cons_eq in C by reflexivity. lia. }
    destruct (list_index_split field l I) as [l1 [l2 [-> [N _]]]].
    cbn [foldM]. rewrite (expand_field_at _ _ _ f l1 l2 c d G N).
    assert (Krest : forall x, In x rest ->
                      exists f, dict_get (fields char) x = Some f)
      by (intros x Hx; apply K; now right).
    assert (lift : forall st',
               (forall x, count_occ string_dec rest x
                          <= count_occ string_dec (_FIELDS_TO_READ st') x)%nat ->
               (exists st'',
                  foldM (expand_field get_xml_char char) rest st' = Ok st'')
               \/ (exists field0 f0 reference e,
                     In field0 (field :: rest)
                     /\ dict_get (fields char) field0 = Some f0
                     /\ Reference f0 = Some reference
                     /\ get_xml_char reference = Raise e
                     /\ foldM (expand_field get_xml_char char) rest st'
                        = Raise e)).
    { intros st' C'. destruct (IH st' Krest C') as [H | H]; [now left |].
      right. destruct H as [x [fx [r [e [Hx H]]]]].
      exists x, fx, r, e. split; [now right | exact H]. }
    destruct (Reference f) as [reference |] eqn:R.
    + destruct (get_xml_char reference) as [reference_char | e] eqn:L.
      * cbn [bind]. apply lift. cbn [_FIELDS_TO_READ]. intros x.
        specialize (C x). rewrite !count_occ_app in *.
        destruct (string_dec field x) as [-> | D].
        -- rewrite !count_occ_cons_eq in C by reflexivity. lia.
        -- rewrite !count_occ_cons_neq in C by assumption. lia.
      * right. exists field, f, reference, e.
        repeat split; try assumption. now left.
    + cbn [bind]. apply lift. cbn [_FIELDS_TO_READ]. intros x.
      specialize (C x).
      destruct (string_dec field x) as [-> | D].
      * rewrite count_occ_cons_eq in C by reflexivity. lia.
      * rewrite count_occ_cons_neq in C by assumption. lia.
Qed.




(** ** The spliced sequence *)

Lemma append_nil_r (s : string) : String.append s "" = s.
Proof.
  induction s as [| a s IH]; [reflexivity |]. cbn. now rewrite IH.
Qed.

Lemma append_assoc (s1 s2 s3 : string) :
  String.append (String.append s1 s2) s3
  = String.append s1 (String.append s2 s3).
Proof.
  induction s1 as [| a s1 IH]; [reflexivity |]. cbn. now rewrite IH.
Qed.

Lemma add_ctype_code (f : Field) (c : string) :
  add_ctype f c = String.append c (code_of f).
Proof.
  unfold add_ctype, code_of.
  destruct (Ctype f); [reflexivity | now rewrite append_nil_r].
Qed.

Lemma add_ctypes_codes (refs : list (string * Field)) (c : string) :
  add_ctypes refs c = String.append c (codes refs).
Proof.
  unfold add_ctypes. revert c.
  induction refs as [| ref refs IH]; intros c.
  - cbn. now rewrite append_nil_r.
  - cbn [fold_left codes fold_right]. rewrite IH, add_ctype_code.
    apply append_assoc.
Qed.









(** ** The values *)
















(** * Further properties of formatter.py *)

(** ** Two's complement *)

Lemma land_pow2_zero (u k : Z) :
  0 <= k -> (Z.land u (2 ^ k) =? 0) = negb (Z.testbit u k).
Proof.
  intros K. destruct (Z.testbit u k) eqn:T; cbn [negb].
  - apply Z.eqb_neq. intros E.
    assert (B : Z.testbit (Z.land u (2 ^ k)) k = true)
      by (rewrite Z.land_spec, T, Z.pow2_bits_true by assumption; reflexivity).
    rewrite E, Z.bits_0 in B. discriminate B.
  - apply Z.eqb_eq, Z.bits_inj_0. intros n.
    rewrite Z.land_spec. destruct (Z.eq_dec k n) as [<- | D].
    + now rewrite T.
    + rewrite (Z.pow2_bits_false k n D). apply andb_false_r.
Qed.

Lemma testbit_top (u k : Z) :
  0 <= k -> 0 <= u < 2 ^ (k + 1) -> Z.testbit u k = negb (u <? 2 ^ k).
Proof.
  intros K R. rewrite Z.pow_add_r, Z.pow_1_r in R by lia.
  assert (P : 0 < 2 ^ k) by (apply Z.pow_pos_nonneg; lia).
  rewrite Z.testbit_eqb by assumption.
  destruct (Z.ltb_spec u (2 ^ k)) as [L | L]; cbn [negb].
  - rewrite Z.div_small by lia. reflexivity.
  - replace (u / 2 ^ k) with 1; [reflexivity |].
    apply Z.div_unique with (r := u - 2 ^ k); lia.
Qed.

(** The test of the sign bit that [twos_comp] and [twos_comp_dec] make,
    on a value of [bits] bits. *)
Lemma sign_bit_test (u bits : Z) :
  0 < bits -> 0 <= u < 2 ^ bits ->
  (Z.land u (Z.shiftl 1 (bits - 1)) =? 0) = (u <? 2 ^ (bits - 1)).
Proof.
  intros B R. rewrite Z.shiftl_1_l, land_pow2_zero by lia.
  rewrite testbit_top; [apply negb_involutive | lia |].
  now replace (bits - 1 + 1) with bits by lia.
Qed.

Lemma land_mask (v bits : Z) :
  0 <= bits -> Z.land v (2 ^ bits - 1) = v mod 2 ^ bits.
Proof.
  intros B. rewrite <- Z.land_ones by assumption.
  now rewrite Z.ones_equiv, <- Z.sub_1_r.
Qed.

Lemma twos_comp_mod (val bits : Z) :
  0 < bits -> twos_comp val bits = val mod 2 ^ bits.
Proof.
  intros B. unfold twos_comp. rewrite !Z.shiftl_1_l.
  destruct (negb (Z.land val (2 ^ (bits - 1)) =? 0));
    rewrite land_mask by lia; [| reflexivity].
  replace (val - 2 ^ bits) with (val + (-1) * 2 ^ bits) by lia.
  apply Z.mod_add.
  apply Z.pow_nonzero; lia.
Qed.

(** X1.  [twos_comp(val, bits)] is [val] modulo [2 ** bits] for every
    integer [val]: the subtraction that the function makes when the sign
    bit is set is undone by the final mask. *)
Theorem twos_comp_is_mod (val bits : Z) :
  0 < bits -> twos_comp val bits = val mod 2 ^ bits.
Proof.
  exact (twos_comp_mod val bits).
Qed.

Lemma twos_comp_is_mod_witness : twos_comp (-25) 12 = (-25) mod 2 ^ 12.
Proof.
  apply (twos_comp_is_mod (-25) 12). lia.
Defined.

(** X2.  [twos_comp_dec] undoes [twos_comp] on the integers that fit in
    [bits] bits of two's complement. *)
Theorem twos_comp_dec_twos_comp (val bits : Z) :
  0 < bits ->
  - 2 ^ (bits - 1) <= val < 2 ^ (bits - 1) ->
  twos_comp_dec (twos_comp val bits) bits = val.
Proof.
  intros B R.
  pose proof (twos_comp_mod val bits B) as H.
  rewrite H.
  assert (P : 2 ^ bits = 2 * 2 ^ (bits - 1)).
  { replace bits with (bits - 1 + 1) at 1 by lia.
    rewrite Z.pow_add_r, Z.pow_1_r by lia. lia. }
  assert (P1 : 0 < 2 ^ (bits - 1)) by (apply Z.pow_pos_nonneg; lia).
  unfold twos_comp_dec.
  rewrite sign_bit_test by (try apply Z.mod_pos_bound; lia).
  rewrite Z.shiftl_1_l.
  destruct (Z.ltb_spec val 0) as [Neg | Pos].
  - replace (val mod 2 ^ bits) with (val + 2 ^ bits)
      by (apply Z.mod_unique with (q := -1); lia).
    destruct (Z.ltb_spec (val + 2 ^ bits) (2 ^ (bits - 1))); cbn [negb]; lia.
  - rewrite Z.mod_small by lia.
    destruct (Z.ltb_spec val (2 ^ (bits - 1))); cbn [negb]; lia.
Qed.

Lemma twos_comp_dec_twos_comp_witness :
  twos_comp_dec (twos_comp (-2048) 12) 12 = -2048.
Proof.
  apply (twos_comp_dec_twos_comp (-2048) 12); cbn; lia.
Defined.

(** ** Round trips *)

Lemma le_bytes_S (n : nat) (u : Z) :
  exists b,
    le_bytes (S n) u = b :: le_bytes n (u / 256) /\ byte_val b = u mod 256.
Proof.
  cbn [le_bytes].
  pose proof (Z.mod_pos_bound u 256 ltac:(lia)) as R.
  destruct (Byte.of_N (Z.to_N (u mod 256))) as [b |] eqn:E.
  - exists b. split; [reflexivity |].
    apply Byte.to_of_N in E. unfold byte_val. rewrite E. apply Z2N.id. lia.
  - apply Byte.of_N_None_iff in E. lia.
Qed.

Lemma py_int_exact (q : Q) (m : Z) : Qeq q (inject_Z m) -> py_int q = m.
Proof.
  unfold Qeq, py_int. cbn [Qnum Qden inject_Z]. intros E.
  rewrite Z.mul_1_r in E. rewrite E. apply Z.quot_mul. discriminate.
Qed.

Lemma pow10_nonzero (p : Z) : ~ Qeq (pow10 p) 0.
Proof.
  unfold pow10. destruct (0 <=? p) eqn:S.
  - apply Z.leb_le in S. unfold Qeq. cbn.
    pose proof (Z.pow_pos_nonneg 10 p ltac:(lia) S). lia.
  - apply Z.leb_gt in S. intros E.
    pose proof (Z.pow_pos_nonneg 10 (- p) ltac:(lia) ltac:(lia)) as P.
    assert (N : ~ Qeq (inject_Z (10 ^ (- p))) 0) by (unfold Qeq; cbn; lia).
    apply N. rewrite <- (Qinv_involutive (inject_Z (10 ^ (- p)))).
    rewrite E. reflexivity.
Qed.

Lemma pow10_opp (p : Z) : Qeq (Qdiv 1 (pow10 (- p))) (pow10 p).
Proof.
  assert (G : forall n, 0 < n ->
                Qeq (Qdiv 1 (Qinv (inject_Z (10 ^ n)))) (inject_Z (10 ^ n))).
  { intros n N. unfold Qdiv. rewrite Qinv_involutive. apply Qmult_1_l. }
  unfold pow10.
  destruct (Z.leb_spec 0 p) as [P | P], (Z.leb_spec 0 (- p)) as [M | M];
    try lia.
  - replace p with 0 by lia. reflexivity.
  - replace (- - p) with p by lia.
    destruct (Z.eq_dec p 0) as [-> | D]; [reflexivity |].
    apply G. lia.
  - unfold Qdiv. apply Qmult_1_l.
Qed.

(** The float that a reduced quotient denotes, when the scaled value is
    the integer [m]. *)
Lemma scaled_back (value : Q) (x : Q) (m : Z) :
  ~ Qeq x 0 -> Qeq (Qmult value x) (inject_Z m) ->
  Qred (Qdiv (inject_Z m) x) = Qred value.
Proof.
  intros N E. apply Qred_complete. rewrite <- E. now apply Qdiv_mult_l.
Qed.

(** X3.  Round trip of the SFLOAT codec: for a precision from 0 to 7 and
    a value that a [float] holds exactly (or an [int]) whose scaled
    mantissa [value * 10 ** precision] is an integer from -2^11 to
    2^11 - 1, [encode_SFLOAT_ieee11073] returns bytes that
    [decode_SFLOAT_ieee11073] decodes to the value again; except that at
    precision 0 the five reserved mantissas come back as their labels.
    On these values the arithmetic of the program is exact: the product
    is an integer below 2^53, which the multiplication of binary64 gives
    without rounding, and the quotient of the decoder is the value
    itself, which the division of integers gives without rounding since
    a [float] holds it.  A decimal such as 0.29, which no [float] holds,
    is outside the statement. *)
Theorem SFLOAT_round_trip (value : Q) (precision m : Z) :
  binary64 value ->
  Qeq (Qmult value (pow10 precision)) (inject_Z m) ->
  0 <= precision <= 7 ->
  - 2 ^ 11 <= m < 2 ^ 11 ->
  exists encoded,
    encode_SFLOAT_ieee11073 value precision = Ok encoded
    /\ decode_SFLOAT_ieee11073 encoded
       = Ok (match (if precision =? 0
                    then special_get special_values_SFLOAT m
                    else None) with
             | Some label => PStr label
             | None => PFloat (FNum (Qred value))
             end).
Proof.
  intros _ E P R. change (2 ^ 11) with 2048 in R.
  unfold encode_SFLOAT_ieee11073. rewrite (py_int_exact _ m E).
  replace (m <? 2 ^ 11) with true by (symmetry; apply Z.ltb_lt; cbn; lia).
  cbn [negb]. rewrite twos_comp_mod by lia.
  rewrite Z.shiftl_mul_pow2 by lia.
  change (2 ^ 12) with 4096.
  pose proof (Z.mod_pos_bound m 4096 ltac:(lia)) as Rm.
  set (x := precision * 4096 + m mod 4096).
  assert (Rx : 0 <= x < 32768) by (unfold x; lia).
  unfold to_bytes_signed.
  change (8 * Z.of_nat 2) with 16. change (2 ^ (16 - 1)) with 32768.
  change (2 ^ 16) with 65536.
  replace ((- (32768) <=? x) && (x <? 32768)) with true
    by (symmetry; apply andb_true_intro; split;
        [apply Z.leb_le | apply Z.ltb_lt]; lia).
  rewrite (Z.mod_small x 65536) by lia.
  destruct (le_bytes_S 1 x) as [lo [E0 V0]].
  destruct (le_bytes_S 0 (x / 256)) as [hi [E1 V1]].
  rewrite E0, E1. cbn [le_bytes]. exists [lo; hi]. split; [reflexivity |].
  rewrite decode_SFLOAT_eq. cbv zeta.
  assert (D : 256 * byte_val hi + byte_val lo = x).
  { rewrite V0, V1. rewrite (Z.mod_small (x / 256) 256).
    - pose proof (Z.div_mod x 256 ltac:(lia)). lia.
    - split; [apply Z.div_pos; lia | apply Z.div_lt_upper_bound; lia]. }
  rewrite D.
  assert (Dq : x / 4096 = precision)
    by (symmetry; apply Z.div_unique with (r := m mod 4096); unfold x; lia).
  assert (Dr : x mod 4096 = m mod 4096)
    by (symmetry; apply Z.mod_unique with (q := precision); unfold x; lia).
  rewrite Dq, Dr.
  assert (S : (if m mod 4096 <? 2048 then m mod 4096 else m mod 4096 - 4096)
              = m).
  { destruct (Z.ltb_spec m 0) as [Neg | Pos].
    - replace (m mod 4096) with (m + 4096)
        by (apply Z.mod_unique with (q := -1); lia).
      destruct (Z.ltb_spec (m + 4096) 2048); lia.
    - rewrite Z.mod_small by lia. destruct (Z.ltb_spec m 2048); lia. }
  rewrite S.
  destruct (if precision =? 0 then special_get special_values_SFLOAT m
            else None); [reflexivity |].
  do 3 f_equal. apply scaled_back.
  - replace (inject_Z (10 ^ precision)) with (pow10 precision)
      by (unfold pow10; now replace (0 <=? precision) with true
            by (symmetry; apply Z.leb_le; lia)).
    apply pow10_nonzero.
  - rewrite <- E. unfold pow10.
    now replace (0 <=? precision) with true by (symmetry; apply Z.leb_le; lia).
Qed.

Lemma SFLOAT_round_trip_witness :
  exists encoded,
    encode_SFLOAT_ieee11073 (-25 # 10) 1 = Ok encoded
    /\ decode_SFLOAT_ieee11073 encoded = Ok (PFloat (FNum (Qred (-25 # 10)))).
Proof.
  apply (SFLOAT_round_trip (-25 # 10) 1 (-25)).
  - exists (-5), (-1). split; [cbn; lia | split; [lia | reflexivity]].
  - reflexivity.
  - lia.
  - cbn. lia.
Defined.

Lemma Qred_inject_Z (m : Z) : Qred (inject_Z m) = inject_Z m.
Proof.
  unfold Qred, inject_Z.
  pose proof (Z.ggcd_gcd m 1) as G.
  pose proof (Z.ggcd_correct_divisors m 1) as D.
  destruct (Z.ggcd m 1) as [g [aa bb]]. cbn [fst snd] in G, D.
  rewrite Z.gcd_1_r in G. subst g. destruct D as [-> D].
  rewrite Z.mul_1_l in D. subst bb. now rewrite Z.mul_1_l.
Qed.

(** X4.  The FLOAT codec on a precision from 0 to 128 and a value that a
    [float] holds exactly (or an [int]) whose scaled mantissa
    [value * 10 ** precision] is an integer [m] from -2^23 to 2^23 - 1:
    [encode_FLOAT_ieee11073] returns four bytes, the first three spelling
    [m] in 24-bit two's complement, little-endian, and the fourth the
    exponent [- precision] as a signed byte, which are the mantissa and
    the exponent that [decode_FLOAT_ieee11073] unpacks; and at precision
    0 the decoder gives the value back, as the [float] of [m], or the
    label when [m] is one of the five reserved mantissas.  (For the other
    precisions the decoder divides by [1 / 10 ** exponent] in floating
    point, which rounds: nothing is stated about its result there.) *)
Theorem FLOAT_round_trip (value : Q) (precision m : Z) :
  binary64 value ->
  Qeq (Qmult value (pow10 precision)) (inject_Z m) ->
  0 <= precision <= 128 ->
  - 2 ^ 23 <= m < 2 ^ 23 ->
  exists b0 b1 b2 b3,
    encode_FLOAT_ieee11073 value precision = Ok [b0; b1; b2; b3]
    /\ sint24 b0 b1 b2 = m
    /\ sint8 b3 = - precision
    /\ (precision = 0 ->
        decode_FLOAT_ieee11073 [b0; b1; b2; b3]
        = Ok (match special_get special_values_FLOAT m with
              | Some label => PStr label
              | None => PFloat (FNum (inject_Z m))
              end)).
Proof.
  intros _ E P R. change (2 ^ 23) with 8388608 in R.
  unfold encode_FLOAT_ieee11073. rewrite (py_int_exact _ m E).
  unfold to_bytes_signed.
  change (8 * Z.of_nat 3) with 24. change (2 ^ (24 - 1)) with 8388608.
  change (2 ^ 24) with 16777216.
  replace ((- (8388608) <=? m) && (m <? 8388608)) with true
    by (symmetry; apply andb_true_intro; split;
        [apply Z.leb_le | apply Z.ltb_lt]; lia).
  replace ((-128 <=? - precision) && (- precision <=? 127)) with true
    by (symmetry; apply andb_true_intro; split; apply Z.leb_le; lia).
  cbn [bind].
  set (x := m mod 16777216).
  pose proof (Z.mod_pos_bound m 16777216 ltac:(lia)) as Rx. fold x in Rx.
  destruct (le_bytes_S 2 x) as [b0 [E0 V0]].
  destruct (le_bytes_S 1 (x / 256)) as [b1 [E1 V1]].
  destruct (le_bytes_S 0 (x / 256 / 256)) as [b2 [E2 V2]].
  destruct (le_bytes_S 0 ((- precision) mod 256)) as [b3 [E3 V3]].
  rewrite E0, E1, E2, E3. cbn [le_bytes app].
  exists b0, b1, b2, b3. split; [reflexivity |].
  assert (S8 : sint8 b3 = - precision).
  { unfold sint8. rewrite V3. rewrite Z.mod_mod by lia.
    destruct (Z.ltb_spec precision 1) as [Lp | Lp].
    - rewrite Z.mod_small by lia. destruct (Z.ltb_spec (- precision) 128); lia.
    - replace ((- precision) mod 256) with (- precision + 256)
        by (apply Z.mod_unique with (q := -1); lia).
      destruct (Z.ltb_spec (- precision + 256) 128); lia. }
  assert (S24 : sint24 b0 b1 b2 = m).
  { unfold sint24. rewrite V0, V1, V2.
    change (2 ^ 23) with 8388608. change (2 ^ 24) with 16777216.
    assert (D : x mod 256 + 256 * ((x / 256) mod 256)
                + 65536 * ((x / 256 / 256) mod 256) = x).
    { rewrite (Z.mod_small (x / 256 / 256) 256).
      - pose proof (Z.div_mod x 256 ltac:(lia)).
        pose proof (Z.div_mod (x / 256) 256 ltac:(lia)). lia.
      - split.
        + apply Z.div_pos; [apply Z.div_pos |]; lia.
        + apply Z.div_lt_upper_bound; [lia |].
          apply Z.div_lt_upper_bound; lia. }
    rewrite D. unfold x in *.
    destruct (Z.ltb_spec m 0) as [Neg | Pos].
    - replace (m mod 16777216) with (m + 16777216)
        by (apply Z.mod_unique with (q := -1); lia).
      destruct (Z.ltb_spec (m + 16777216) 8388608); lia.
    - rewrite Z.mod_small by lia. destruct (Z.ltb_spec m 8388608); lia. }
  split; [exact S24 |]. split; [exact S8 |].
  intros P0. rewrite decode_FLOAT_eq. cbv zeta.
  rewrite S8, S24, P0. change (- 0 =? 0) with true. cbv iota.
  destruct (special_get special_values_FLOAT m); [reflexivity |].
  do 3 f_equal.
  etransitivity; [| apply Qred_inject_Z].
  apply Qred_complete. change (pow10 (- 0)) with (1 # 1).
  unfold Qdiv. change (/ (1 * / 1))%Q with (1 # 1). apply Qmult_1_r.
Qed.

Lemma FLOAT_round_trip_witness :
  (exists b0 b1 b2 b3,
     encode_FLOAT_ieee11073 (-3725 # 100) 2 = Ok [b0; b1; b2; b3]
     /\ sint24 b0 b1 b2 = -3725
     /\ sint8 b3 = -2)
  /\ (exists b0 b1 b2 b3,
        encode_FLOAT_ieee11073 (inject_Z (-3725)) 0 = Ok [b0; b1; b2; b3]
        /\ decode_FLOAT_ieee11073 [b0; b1; b2; b3]
           = Ok (PFloat (FNum (inject_Z (-3725))))).
Proof.
  split.
  - destruct (FLOAT_round_trip (-3725 # 100) 2 (-3725))
      as [b0 [b1 [b2 [b3 [E [M [X _]]]]]]].
    + exists (-149), (-2). split; [cbn; lia | split; [lia | reflexivity]].
    + reflexivity.
    + lia.
    + cbn. lia.
    + exists b0, b1, b2, b3. now repeat split.
  - destruct (FLOAT_round_trip (inject_Z (-3725)) 0 (-3725))
      as [b0 [b1 [b2 [b3 [E [_ [_ D]]]]]]].
    + exists (-3725), 0. split; [cbn; lia | split; [lia | reflexivity]].
    + reflexivity.
    + lia.
    + cbn. lia.
    + exists b0, b1, b2, b3. split; [exact E | exact (D eq_refl)].
Defined.




(** * Further properties of utils.py *)

(** ** The bit extractor *)

Lemma bin_digits_app (s1 s2 : string) :
  forall acc,
    bin_digits (String.append s1 s2) acc
    = (a <- bin_digits s1 acc ;; bin_digits s2 a).
Proof.
  induction s1 as [| c s1 IH]; intros acc; [reflexivity |].
  cbn [String.append bin_digits].
  destruct c as [[] [] [] [] [] [] [] []]; try reflexivity; apply IH.
Qed.

Lemma bin_digits_zeros (n : nat) :
  forall acc,
    bin_digits (Nat.iter n (String.append "0") EmptyString) acc
    = Ok (acc * 2 ^ Z.of_nat n).
Proof.
  induction n as [| n IH]; intros acc.
  - cbn. f_equal. lia.
  - rewrite Nat.iter_succ. cbn [String.append bin_digits]. rewrite IH.
    f_equal.
    rewrite Nat2Z.inj_succ, Z.pow_succ_r by lia. lia.
Qed.

Lemma bin_digits_ones (n : nat) :
  forall acc,
    bin_digits (Nat.iter n (String.append "1") EmptyString) acc
    = Ok (acc * 2 ^ Z.of_nat n + (2 ^ Z.of_nat n - 1)).
Proof.
  induction n as [| n IH]; intros acc.
  - cbn. f_equal. lia.
  - rewrite Nat.iter_succ. cbn [String.append bin_digits]. rewrite IH.
    f_equal.
    rewrite Nat2Z.inj_succ, Z.pow_succ_r by lia. lia.
Qed.

Lemma iter_append_empty (c : string) (n : nat) :
  c <> EmptyString ->
  Nat.iter n (String.append c) EmptyString = EmptyString -> n = O.
Proof.
  intros N. destruct n as [| n]; [reflexivity |].
  rewrite Nat.iter_succ. destruct c as [| a c]; [contradiction | discriminate].
Qed.

(** The mask of a bit group: [size] ones above [index] zeros, whatever
    [total_size] is; the literal is empty, and its evaluation fails,
    only when no digit is asked for. *)
Lemma bitmask_value (total_size index size : Z) :
  0 <= index -> 0 < size ->
  bitmask total_size index size = Ok (Z.shiftl (Z.ones size) index).
Proof.
  intros I S. unfold bitmask, eval_0b, str_repeat.
  set (zs := Nat.iter (Z.to_nat (total_size - (index + size)))
                      (String.append "0") EmptyString).
  set (os := Nat.iter (Z.to_nat size) (String.append "1") EmptyString).
  set (ls := Nat.iter (Z.to_nat index) (String.append "0") EmptyString).
  assert (V : bin_digits (String.append zs (String.append os ls)) 0
              = Ok (Z.shiftl (Z.ones size) index)).
  { unfold zs, os, ls.
    rewrite bin_digits_app, bin_digits_zeros. cbn [bind].
    rewrite bin_digits_app, bin_digits_ones. cbn [bind].
    rewrite bin_digits_zeros. f_equal.
    rewrite Z.mul_0_l, (Z2Nat.id size), (Z2Nat.id index) by lia.
    rewrite Z.shiftl_mul_pow2, Z.ones_equiv by lia.
    unfold Z.pred. ring. }
  destruct (String.append zs (String.append os ls)) eqn:E; [| exact V].
  exfalso.
  assert (Eo : os = EmptyString).
  { destruct zs; [| discriminate E]. destruct os; [reflexivity |].
    discriminate E. }
  apply iter_append_empty in Eo; [lia | discriminate].
Qed.

(** The key that the mask and the shift extract. *)
Lemma extracted_key (v index size : Z) :
  0 <= index -> 0 < size ->
  Z.shiftr (Z.land v (Z.shiftl (Z.ones size) index)) index
  = (v / 2 ^ index) mod 2 ^ size.
Proof.
  intros I S.
  rewrite Z.shiftr_land, Z.shiftr_shiftl_l by lia.
  rewrite Z.sub_diag, Z.shiftl_0_r, Z.land_ones, Z.shiftr_div_pow2 by lia.
  reflexivity.
Qed.

(** X6.  [_autobitmask] on an integer looks up the decimal spelling of the
    bits [index .. index + size - 1] of [val], that is of
    [(val // 2 ** index) % 2 ** size], in the enumeration, and raises
    [KeyError] when that key is missing; [total_size] has no effect. *)
Theorem autobitmask_extracts (v total_size index size : Z)
  (keymap : Keymap) :
  0 <= index -> 0 < size ->
  _autobitmask (PInt v) total_size index size keymap
  = match dict_get (labels keymap)
            (str_of_int ((v / 2 ^ index) mod 2 ^ size)) with
    | Some label => Ok (PStr label)
    | None => Raise KeyError
    end.
Proof.
  intros I S. unfold _autobitmask.
  rewrite bitmask_value by assumption. cbn [bind as_int].
  unfold py_rshift. replace (index <? 0) with false
    by (symmetry; apply Z.ltb_ge; lia).
  cbn [bind]. rewrite extracted_key by assumption.
  unfold dict_item.
  destruct (dict_get (labels keymap)
              (str_of_int ((v / 2 ^ index) mod 2 ^ size))); reflexivity.
Qed.

Lemma autobitmask_extracts_witness :
  _autobitmask (PInt 11) 4 0 2
    (mkKeymap [("0", "none"); ("3", "both")] None)
  = Ok (PStr "both").
Proof.
  apply (autobitmask_extracts 11 4 0 2
           (mkKeymap [("0", "none"); ("3", "both")] None)); lia.
Defined.

(** X7.  [_autobitmask_req] on an integer never raises for a missing key:
    it returns the requirement under the key of the same bits, or
    [False]. *)
Theorem autobitmask_req_total (v total_size index size : Z)
  (keymap : list (string * string)) :
  0 <= index -> 0 < size ->
  _autobitmask_req (PInt v) total_size index size keymap
  = Ok (match dict_get keymap
                (str_of_int ((v / 2 ^ index) mod 2 ^ size)) with
        | Some requirement => PStr requirement
        | None => PBool false
        end).
Proof.
  intros I S. unfold _autobitmask_req.
  rewrite bitmask_value by assumption. cbn [bind as_int].
  unfold py_rshift. replace (index <? 0) with false
    by (symmetry; apply Z.ltb_ge; lia).
  cbn [bind]. rewrite extracted_key by assumption.
  destruct (dict_get keymap
              (str_of_int ((v / 2 ^ index) mod 2 ^ size))); reflexivity.
Qed.

Lemma autobitmask_req_total_witness :
  _autobitmask_req (PInt 2) 2 0 1 [("1", "T")] = Ok (PBool false).
Proof.
  apply (autobitmask_req_total 2 2 0 1 [("1", "T")]); lia.
Defined.

(** ** Padding *)

(** X8.  [_complete_bytes(self, bb)] returns [bb] itself or [bb] after one
    zero byte, and the result always has an even number of bytes. *)
Theorem complete_bytes_even {A} (self : A) (bb : bytes) :
  Nat.even (List.length (_complete_bytes self bb)) = true
  /\ (_complete_bytes self bb = bb \/ _complete_bytes self bb = x00 :: bb).
Proof.
  unfold _complete_bytes.
  destruct (Nat.eqb_spec (List.length bb mod 2) 0) as [E | E].
  - split; [| now left].
    apply Nat.even_spec. exists (List.length bb / 2)%nat.
    pose proof (Nat.div_mod_eq (List.length bb) 2). lia.
  - split; [| now right].
    cbn [List.length]. rewrite Nat.even_succ. apply Nat.odd_spec.
    exists (List.length bb / 2)%nat.
    pose proof (Nat.div_mod_eq (List.length bb) 2).
    pose proof (Nat.mod_upper_bound (List.length bb) 2). lia.
Qed.

(** ** The branch of the flags *)



(** ** Formats that cannot be unpacked *)

Lemma parse_bad (s : string) :
  has_bad s = true -> forall cnt, struct.parse s cnt = Raise StructError.
Proof.
  induction s as [| a s IH]; intros H cnt; [discriminate |].
  cbn [has_bad] in H. cbn [struct.parse]. unfold bad_char in H.
  destruct (struct.is_digit a).
  - cbn in H. now apply IH.
  - destruct (struct.is_space a).
    + cbn in H. destruct cnt; [reflexivity | now apply IH].
    + destruct (struct.code_of_ascii a); [| reflexivity].
      cbn in H. now rewrite IH.
Qed.

Lemma has_bad_app (s1 s2 : string) :
  has_bad (String.append s1 s2) = has_bad s1 || has_bad s2.
Proof.
  induction s1 as [| a s1 IH]; [reflexivity |].
  cbn [String.append has_bad]. now rewrite IH, orb_assoc.
Qed.

(** A format with a bad character is refused, whatever the buffer. *)
Lemma unpack_bad (fmt : string) (buf : bytes) :
  has_bad fmt = true -> struct.unpack fmt buf = Raise StructError.
Proof.
  intros H. unfold struct.unpack. now rewrite parse_bad.
Qed.

(** The loop over the selected fields only appends to the format. *)
Lemma expand_field_keeps_bad (get_xml_char : string -> result CHAR_XML)
  (char : CHAR_XML) (st st' : expansion) (field : string) :
  expand_field get_xml_char char st field = Ok st' ->
  has_bad (ctype_global st) = true
  \/ (exists f, dict_get (fields char) field = Some f
                /\ has_bad (code_of f) = true) ->
  has_bad (ctype_global st') = true.
Proof.
  unfold expand_field, dict_item.
  destruct (dict_get (fields char) field) as [f |]; [| discriminate].
  cbn [bind _FIELDS_TO_READ ctype_global _REFERENCE_FIELDS].
  intros E H.
  assert (B : has_bad (add_ctype f (ctype_global st)) = true).
  { rewrite add_ctype_code, has_bad_app.
    destruct H as [H | [f' [G H]]].
    - now rewrite H.
    - injection G as <-. rewrite H. apply orb_true_r. }
  destruct (Reference f) as [reference |].
  - destruct (get_xml_char reference) as [X | e]; [| discriminate].
    cbn [bind] in E. rewrite expand_reference_eq in E.
    cbn [_FIELDS_TO_READ ctype_global] in E.
    destruct (list_index field (_FIELDS_TO_READ st)); [| discriminate].
    cbn [bind] in E. injection E as <-. cbn [ctype_global].
    rewrite add_ctypes_codes, has_bad_app, B. reflexivity.
  - injection E as <-. exact B.
Qed.

Lemma expand_loop_keeps_bad (get_xml_char : string -> result CHAR_XML)
  (char : CHAR_XML) (rest : list string) :
  forall st st',
    foldM (expand_field get_xml_char char) rest st = Ok st' ->
    has_bad (ctype_global st) = true
    \/ (exists field f, In field rest
                        /\ dict_get (fields char) field = Some f
                        /\ has_bad (code_of f) = true) ->
    has_bad (ctype_global st') = true.
Proof.
  induction rest as [| field rest IH]; intros st st' E H.
  - cbn in E. injection E as <-.
    destruct H as [H | [x [f [[] _]]]]. exact H.
  - cbn [foldM] in E.
    destruct (expand_field get_xml_char char st field) as [st1 |] eqn:E1;
      [| discriminate].
    cbn [bind] in E. apply (IH st1 st' E).
    destruct H as [H | [x [f [[<- | Hx] [G B]]]]].
    + left. apply (expand_field_keeps_bad _ _ _ _ _ E1). now left.
    + left. apply (expand_field_keeps_bad _ _ _ _ _ E1). right. now exists f.
    + right. now exists x, f.
Qed.

Lemma selected_None_are_fields (char : CHAR_XML) (selected : list string) :
  select_fields char None = Ok selected ->
  forall x, In x selected -> exists f, dict_get (fields char) x = Some f.
Proof.
  unfold select_fields. rewrite select_loop_None.
  destruct (existsb needs_tagb (fields char)); [discriminate |].
  intros E x H. injection E as <-.
  apply in_map_iff in H. destruct H as [[k f] [<- H]].
  apply filter_In in H. destruct H as [H _].
  cbn [fst]. exact (dict_get_of_in _ _ _ H).
Qed.

(** X10.  In the decode of several fields without flags, a selected field
    whose declared format is utf8s, variable, gatt_uuid or characteristic
    makes every call fail: the composite format holds the code "utf8" or
    "X", which [struct] refuses, so the call raises [struct.error] for
    every blob (or the failure of a reference document that did not
    load). *)
Theorem text_field_blocks_decode
  (get_xml_char : string -> result CHAR_XML) (char : CHAR_XML)
  (val : bytes) (rtn_flags : bool) (selected : list string)
  (field fmt : string) (f : Field) :
  reqs_unset char ->
  select_fields char None = Ok selected ->
  In field selected ->
  dict_get (fields char) field = Some f ->
  Format f = Some fmt ->
  In fmt unstructured_formats ->
  _get_multiple_fields get_xml_char char val rtn_flags = Raise StructError
  \/ (exists reference e,
        get_xml_char reference = Raise e
        /\ _get_multiple_fields get_xml_char char val rtn_flags = Raise e).
Proof.
  intros U S Hf G Fm Hfmt.
  assert (B : has_bad (code_of f) = true).
  { unfold code_of, Ctype. rewrite Fm.
    cbn [unstructured_formats In] in Hfmt.
    destruct Hfmt as [<- | [<- | [<- | [<- | []]]]]; reflexivity. }
  rewrite (multiple_fields_unset _ _ _ _ U).
  unfold no_flags_branch. rewrite S. cbn [bind].
  destruct selected as [| s0 sel]; [contradiction |].
  unfold expand_fields.
  destruct (expand_loop_total get_xml_char char (s0 :: sel)
              (mkExpansion (s0 :: sel) "" [])
              (selected_None_are_fields char (s0 :: sel) S)
              (fun x => le_n _))
    as [[st' H] | [x [fx [ref [e [_ [_ [_ [Le H]]]]]]]]].
  - left. rewrite H. cbn [bind].
    rewrite unpack_bad; [reflexivity |].
    apply (expand_loop_keeps_bad _ _ _ _ _ H). right. now exists field, f.
  - right. exists ref, e. rewrite H. now split.
Qed.

Lemma text_field_blocks_decode_witness :
  _get_multiple_fields no_documents char_name_level [x41; x07] false
  = Raise StructError
  \/ (exists reference e,
        no_documents reference = Raise e
        /\ _get_multiple_fields no_documents char_name_level [x41; x07] false
           = Raise e).
Proof.
  apply (text_field_blocks_decode no_documents char_name_level [x41; x07]
           false ["Name"; "Level"] "Name" "utf8s"
           (plain "utf8s" ["Mandatory"])).
  - exact I.
  - reflexivity.
  - left. reflexivity.
  - reflexivity.
  - reflexivity.
  - left. reflexivity.
Defined.

(** ** The scaling and the decode of one field *)

Lemma scale_int (meta : Field) (r : Z) :
  0 <= exponent_of (DecimalExponent meta) ->
  0 <= exponent_of (BinaryExponent meta) ->
  scale meta (PInt r) = Ok (PInt (scaled meta r)).
Proof.
  unfold scale, scaled, multiplier_of, exponent_of, py_pow.
  intros D B.
  destruct (Multiplier meta) as [m |],
           (DecimalExponent meta) as [d |],
           (BinaryExponent meta) as [b |];
    cbn [bind py_mul];
    repeat match goal with
           | |- context [0 <=? ?e] =>
               replace (0 <=? e) with true by (symmetry; apply Z.leb_le; lia)
           end;
    cbn [bind py_mul]; do 2 f_equal; cbn; ring.
Qed.

(** X11.  The scaling of an integer raw value whose metadata has no
    negative exponent is exact and stays an integer: the value times the
    [Multiplier], times 10 to the [DecimalExponent], times 2 to the
    [BinaryExponent], each taken as absent when the metadata has none. *)
Theorem scale_int_exact (meta : Field) (r : Z) :
  0 <= exponent_of (DecimalExponent meta) ->
  0 <= exponent_of (BinaryExponent meta) ->
  scale meta (PInt r)
  = Ok (PInt (r * multiplier_of meta
              * 10 ^ exponent_of (DecimalExponent meta)
              * 2 ^ exponent_of (BinaryExponent meta))).
Proof.
  intros D B. exact (scale_int meta r D B).
Qed.

Lemma scale_int_exact_witness :
  scale (scaled_field "uint16" (Some 5) (Some 2) None) (PInt 7)
  = Ok (PInt 3500).
Proof.
  apply (scale_int_exact (scaled_field "uint16" (Some 5) (Some 2) None) 7);
    cbn; lia.
Defined.

Lemma code_not_digit_space (a : ascii) (c : struct.code) :
  struct.code_of_ascii a = Some c ->
  struct.is_digit a = false /\ struct.is_space a = false.
Proof.
  destruct a as [[] [] [] [] [] [] [] []]; cbn; intros H;
    try discriminate H; split; reflexivity.
Qed.

Lemma parse_one_code (a : ascii) (c : struct.code) :
  struct.code_of_ascii a = Some c ->
  struct.parse (String a "") None = Ok [(1%nat, c)].
Proof.
  intros H. destruct (code_not_digit_space a c H) as [D S].
  cbn [struct.parse]. rewrite D, S, H. reflexivity.
Qed.

Lemma align_0 (n : nat) : (0 < n)%nat -> struct.align 0 n = O.
Proof.
  intros H. unfold struct.align.
  rewrite Nat.add_0_l, Nat.div_small by lia. reflexivity.
Qed.

Lemma size_pos (c : struct.code) : (0 < struct.size c)%nat.
Proof. destruct c; cbn; lia. Qed.

(** One code, no count: one item read from the whole buffer. *)
Lemma unpack_one_code (a : ascii) (c : struct.code) (val : bytes) :
  struct.code_of_ascii a = Some c ->
  struct.unpack (String a "") val
  = if (List.length val =? struct.size c)%nat
    then Ok (struct.value_of c val)
    else Raise StructError.
Proof.
  intros H. unfold struct.unpack. rewrite (parse_one_code a c H).
  cbn [bind struct.size_items struct.unpack_items struct.read_n].
  rewrite align_0 by apply size_pos.
  rewrite Nat.mul_1_l, Nat.add_0_l.
  destruct (List.length val =? struct.size c)%nat eqn:L; [| reflexivity].
  apply Nat.eqb_eq in L. cbn [skipn].
  rewrite <- L, firstn_all, !app_nil_r. reflexivity.
Qed.

Lemma value_of_int (c : struct.code) (signed : bool) (val : bytes) :
  int_signed c = Some signed ->
  List.length val = struct.size c ->
  struct.value_of c val = [PInt (reading signed val)].
Proof.
  intros H L. unfold reading. rewrite L.
  destruct c; cbn in H; try discriminate H; injection H as <-; reflexivity.
Qed.

Lemma one_code_not_utf8 (a : ascii) : String.eqb (String a "") "utf8" = false.
Proof.
  cbn [String.eqb]. destruct (Ascii.eqb a "u"); reflexivity.
Qed.

(** X12.  A characteristic of one field that has an integer code, no bit
    field and no enumerations, with no negative exponent: a value of the
    size of the code decodes to the little-endian integer of the bytes
    (signed for a signed code), scaled, under the field's name and with
    its unit metadata; a value of any other length raises
    [struct.error]. *)
Theorem single_int_field (get_xml_char : string -> result CHAR_XML)
  (name field : string) (f : Field) (a : ascii) (c : struct.code)
  (signed rtn_flags : bool) (val : bytes) :
  Ctype f = Some (String a "") ->
  struct.code_of_ascii a = Some c ->
  int_signed c = Some signed ->
  BitField f = None ->
  Enumerations f = None ->
  0 <= exponent_of (DecimalExponent f) ->
  0 <= exponent_of (BinaryExponent f) ->
  get_char_value get_xml_char val (inr (one_field name field f)) rtn_flags
  = if (List.length val =? struct.size c)%nat
    then Ok (RVals [(field,
                     mkFieldVal (Quantity f) (Unit f) (Symbol f)
                       (Some (PInt (reading signed val * multiplier_of f
                                    * 10 ^ exponent_of (DecimalExponent f)
                                    * 2 ^ exponent_of (BinaryExponent f)))))])
    else Raise StructError.
Proof.
  intros C A S B E D2 B2.
  unfold get_char_value, one_field. cbn [bind fields List.length Nat.eqb].
  unfold _get_single_field. cbn [fields single_field_loop].
  rewrite C, B, E. unfold _unpack_data.
  rewrite one_code_not_utf8, (unpack_one_code a c val A).
  destruct (List.length val =? struct.size c)%nat eqn:L; [| reflexivity].
  apply Nat.eqb_eq in L. cbn [bind].
  rewrite (value_of_int c signed val S L). cbn [unpack1 bind].
  rewrite (scale_int f _ D2 B2). reflexivity.
Qed.

Lemma single_int_field_witness :
  get_char_value no_documents [xfe; xff]
    (inr (one_field "Level" "Level"
            (scaled_field "sint16" (Some 5) (Some 1) None))) false
  = Ok (RVals [("Level", mkFieldVal None None None (Some (PInt (-100))))]).
Proof.
  apply (single_int_field no_documents "Level" "Level"
           (scaled_field "sint16" (Some 5) (Some 1) None)
           "h"%char struct.Ch true false [xfe; xff]);
    try reflexivity; cbn; lia.
Defined.

Lemma single_loop_not_None (char : CHAR_XML) (val : bytes)
  (fs : list (string * Field)) :
  single_field_loop char val fs = Ok RNone <->
  (forall fld, In fld fs -> Ctype (snd fld) = None).
Proof.
  induction fs as [| [field f] rest IH].
  - cbn. split; [intros _ fld [] | reflexivity].
  - cbn [single_field_loop].
    destruct (Ctype f) as [ctype |] eqn:C.
    + split.
      * intros H. exfalso. revert H.
        assert (F : forall data,
                   (formatted_value <- scale f data ;;
                    Ok (RVals [(field, with_units f formatted_value)]))
                   <> Ok RNone).
        { intros data. destruct (scale f data); cbn [bind]; discriminate. }
        destruct (BitField f) as [bitfield |].
        -- destruct (struct.unpack ctype val) as [l |]; cbn [bind];
             [| discriminate].
           destruct (unpack1 l) as [raw |]; cbn [bind]; [| discriminate].
           destruct (_autoformat char raw None) as [x |]; cbn [bind];
             [| discriminate].
           destruct (first_value x); cbn [bind]; discriminate.
        -- destruct (Enumerations f) as [keymap |].
           ++ destruct (keymap_truthy keymap);
                (destruct (struct.unpack ctype val) as [l |]; cbn [bind];
                 [| discriminate]);
                (destruct (unpack1 l) as [data |]; cbn [bind];
                 [| discriminate]).
              ** destruct (match py_str data with
                           | Some k => dict_get (labels keymap) k
                           | None => None
                           end); [discriminate | apply F].
              ** apply F.
           ++ destruct (_unpack_data ctype val) as [data |]; cbn [bind];
                [apply F | discriminate].
      * intros H. specialize (H (field, f) (or_introl eq_refl)).
        cbn [snd] in H. congruence.
    + rewrite IH. split.
      * intros H fld [<- | Hin]; [exact C | now apply H].
      * intros H fld Hin. apply H. now right.
Qed.

(** X13.  [_get_single_field] returns [None] exactly when no field of the
    characteristic has a code, that is when every field has no format or
    one that [DATA_FMT] does not know; the value is then not read at
    all.  With a field that has a code it returns a dictionary or
    raises. *)
Theorem single_field_None_iff_no_code (char : CHAR_XML) (val : bytes) :
  _get_single_field char val = Ok RNone <->
  (forall field f, In (field, f) (fields char) ->
     match Format f with
     | Some fmt => dict_get DATA_FMT fmt = None
     | None => True
     end).
Proof.
  unfold _get_single_field. rewrite single_loop_not_None. split.
  - intros H field f Hin. specialize (H (field, f) Hin). cbn [snd] in H.
    unfold Ctype in H. destruct (Format f); [exact H | exact I].
  - intros H [field f] Hin. specialize (H field f Hin). cbn [snd].
    unfold Ctype. destruct (Format f); [exact H | reflexivity].
Qed.

(** ** Text in one field *)

Lemma utf8_valid_ascii (bs : list Z) :
  Forall (fun b => b <= 127) bs -> utf8_valid bs = true.
Proof.
  induction 1 as [| b bs H _ IH]; [reflexivity |].
  cbn [utf8_valid]. apply Z.leb_le in H. rewrite H. exact IH.
Qed.

(** X14.  A characteristic of one text field (code "utf8", no bit field,
    no enumerations, no scaling) decodes a value of any length that holds
    ASCII bytes only, the empty value included, to its text. *)
Theorem single_text_field (get_xml_char : string -> result CHAR_XML)
  (name field : string) (f : Field) (rtn_flags : bool) (val : bytes) :
  Ctype f = Some "utf8" ->
  BitField f = None ->
  Enumerations f = None ->
  Multiplier f = None ->
  DecimalExponent f = None ->
  BinaryExponent f = None ->
  Forall (fun b => byte_val b <= 127) val ->
  get_char_value get_xml_char val (inr (one_field name field f)) rtn_flags
  = Ok (RVals [(field,
                mkFieldVal (Quantity f) (Unit f) (Symbol f)
                  (Some (PStr (string_of_list_byte val))))]).
Proof.
  intros C B E M D2 B2 A.
  unfold get_char_value, one_field. cbn [bind fields List.length Nat.eqb].
  unfold _get_single_field. cbn [fields single_field_loop].
  rewrite C, B, E. unfold _unpack_data, decode_utf8.
  rewrite String.eqb_refl, utf8_valid_ascii.
  - cbn [bind]. unfold scale. rewrite M, D2, B2. reflexivity.
  - apply Forall_map. exact A.
Qed.

Lemma single_text_field_witness :
  get_char_value no_documents [x48; x69]
    (inr (one_field "Name" "Name" (plain "utf8s" ["Mandatory"]))) false
  = Ok (RVals [("Name", mkFieldVal None None None (Some (PStr "Hi")))]).
Proof.
  apply (single_text_field no_documents "Name" "Name"
           (plain "utf8s" ["Mandatory"]) false [x48; x69]);
    try reflexivity.
  repeat constructor; cbn; lia.
Defined.

(** ** The bit fields and their requirement maps *)

Lemma dict_keys_set {V W} (d : list (string * V)) (d' : list (string * W))
  (k : string) (v : V) (w : W) :
  dict_keys d = dict_keys d' ->
  dict_keys (dict_set d k v) = dict_keys (dict_set d' k w).
Proof.
  unfold dict_keys. revert d'.
  induction d as [| [k0 v0] d IH]; intros [| [k1 w1] d'] H;
    try discriminate H; [reflexivity |].
  cbn [map fst] in H. injection H as -> H.
  cbn [dict_set]. destruct (String.eqb k k1).
  - cbn [map fst]. now rewrite H.
  - cbn [map fst]. now rewrite (IH d' H).
Qed.

Lemma autobitmask_req_follows (val : pyval) (total_size index size : Z)
  (keymap : Keymap) (reqmap : list (string * string)) (v : pyval) :
  _autobitmask val total_size index size keymap = Ok v ->
  exists w, _autobitmask_req val total_size index size reqmap = Ok w.
Proof.
  unfold _autobitmask, _autobitmask_req.
  destruct (bitmask total_size index size) as [m |]; [| discriminate].
  cbn [bind]. destruct (as_int val) as [z |]; [| discriminate].
  cbn [bind]. destruct (py_rshift (Z.land z m) index) as [key |];
    [| discriminate].
  cbn [bind]. intros _.
  destruct (dict_get reqmap (str_of_int key)); eexists; reflexivity.
Qed.

Lemma bits_reqs_follow (val : pyval) (total_size : Z)
  (bitfield : list (string * Bit)) :
  forall (d d' : pydict pyval) (entry : pydict pyval),
    foldM (fun d bitf =>
             key_map <- bit_keymap (snd bitf) ;;
             v <- _autobitmask val total_size (index (snd bitf))
                    (size (snd bitf)) key_map ;;
             Ok (dict_set d (fst bitf) v)) bitfield d = Ok entry ->
    exists entry',
      foldM (fun d bitf =>
               key_map <- bit_keymap (snd bitf) ;;
               match Requires key_map with
               | Some reqmap =>
                   v <- _autobitmask_req val total_size
                          (index (snd bitf)) (size (snd bitf)) reqmap ;;
                   Ok (dict_set d (fst bitf) v)
               | None => Ok d
               end) bitfield d' = Ok entry'.
Proof.
  induction bitfield as [| bitf rest IH]; intros d d' entry H.
  - eexists. reflexivity.
  - cbn [foldM] in *.
    destruct (bit_keymap (snd bitf)) as [key_map |]; [| discriminate].
    cbn [bind] in *.
    destruct (_autobitmask val total_size (index (snd bitf))
                (size (snd bitf)) key_map) as [v |] eqn:A; [| discriminate].
    cbn [bind] in H.
    destruct (Requires key_map) as [reqmap |].
    + destruct (autobitmask_req_follows _ _ _ _ _ reqmap _ A) as [w ->].
      cbn [bind]. exact (IH _ _ _ H).
    + cbn [bind]. exact (IH _ _ _ H).
Qed.

Lemma fields_reqs_follow (val : pyval) (fs : list (string * Field)) :
  forall (acc a : pydict (pydict pyval)) (acc' : pydict (pydict pyval)),
    dict_keys acc' = dict_keys acc ->
    foldM (fun acc fld => autoformat_field val acc (fst fld) (snd fld))
          fs acc = Ok a ->
    exists r,
      foldM (fun acc fld =>
        match Ctype (snd fld), BitField (snd fld) with
        | Some _, Some bitfield =>
            let total_size := total_size_of bitfield in
            entry <- foldM (fun d bitf =>
                       key_map <- bit_keymap (snd bitf) ;;
                       match Requires key_map with
                       | Some reqmap =>
                           v <- _autobitmask_req val total_size
                                  (index (snd bitf)) (size (snd bitf))
                                  reqmap ;;
                           Ok (dict_set d (fst bitf) v)
                       | None => Ok d
                       end) bitfield [] ;;
            Ok (dict_set acc (fst fld) entry)
        | _, _ => Ok acc
        end) fs acc' = Ok r
      /\ dict_keys r = dict_keys a.
Proof.
  induction fs as [| fld rest IH]; intros acc a acc' K H.
  - cbn [foldM] in *. injection H as <-. now exists acc'.
  - cbn [foldM] in *. unfold autoformat_field in H at 1.
    destruct (Ctype (snd fld)) as [ctype |].
    + destruct (BitField (snd fld)) as [bitfield |].
      * cbn zeta in *.
        match type of H with
        | context [bind (foldM ?f bitfield []) _] =>
            destruct (foldM f bitfield []) as [entry |] eqn:E;
              [| discriminate H]
        end.
        cbn [bind] in H.
        destruct (bits_reqs_follow _ _ _ _ [] _ E) as [entry' ->].
        cbn [bind]. apply (IH _ _ _ (dict_keys_set _ _ _ _ _ K) H).
      * cbn [bind] in H. exact (IH _ _ _ K H).
    + cbn [bind] in H. exact (IH _ _ _ K H).
Qed.

(** X15.  Whenever the bit fields of a value decode ([_autoformat] over
    all the fields returns), the requirement maps decode too
    ([_autoformat_reqs] returns), with an entry for the same fields in the
    same order: a bit that has a label but no requirement never makes the
    second pass fail. *)
Theorem autoformat_reqs_follows (char : CHAR_XML) (val : pyval)
  (a : pydict (pydict pyval)) :
  _autoformat char val None = Ok a ->
  exists r, _autoformat_reqs char val = Ok r /\ dict_keys r = dict_keys a.
Proof.
  unfold _autoformat, _autoformat_reqs. intros H.
  exact (fields_reqs_follow val (fields char) [] a [] eq_refl H).
Qed.

Lemma autoformat_reqs_follows_witness :
  exists r,
    _autoformat_reqs char_flags_A_B (PInt 1) = Ok r
    /\ dict_keys r = dict_keys [("Flags", [("Bit0", PStr "present")])].
Proof.
  apply (autoformat_reqs_follows char_flags_A_B (PInt 1)
           [("Flags", [("Bit0", PStr "present")])]).
  reflexivity.
Defined.

(** * Properties of [SuperStruct] *)

Lemma plain_format_cons (s : ascii) (rest : string) :
  plain_format (String s rest) ->
  SuperStruct.is_spec s = false /\ plain_format rest.
Proof.
  unfold plain_format. cbn [list_ascii_of_string existsb].
  intros H. apply orb_false_iff in H. exact H.
Qed.

Lemma is_spec_cases (s : ascii) :
  SuperStruct.is_spec s = true -> s = "F"%char \/ s = "S"%char.
Proof.
  unfold SuperStruct.is_spec. cbn [existsb SuperStruct.spec_formats].
  destruct (Ascii.eqb s "F") eqn:F; [left; now apply Ascii.eqb_eq |].
  destruct (Ascii.eqb s "S") eqn:S; [right; now apply Ascii.eqb_eq |].
  discriminate.
Qed.

(** Over plain codes the size loop only collects them. *)
Lemma size_loop_plain (pre : string) :
  plain_format pre ->
  forall rest inter sz,
    SuperStruct.overall_size_loop (String.append pre rest) inter sz
    = SuperStruct.overall_size_loop rest (String.append inter pre) sz.
Proof.
  induction pre as [| s pre IH]; intros P rest inter sz.
  - now rewrite append_nil_r.
  - destruct (plain_format_cons _ _ P) as [S P'].
    cbn [String.append SuperStruct.overall_size_loop]. rewrite S.
    rewrite (IH P'), append_assoc. reflexivity.
Qed.

Lemma add_size_calcsize (fmt : string) :
  SuperStruct.add_size fmt 0 = struct.calcsize fmt.
Proof.
  destruct fmt as [| a fmt]; [reflexivity |].
  unfold SuperStruct.add_size.
  destruct (struct.calcsize (String a fmt)); reflexivity.
Qed.

Lemma calcsize_plain (fmt : string) :
  plain_format fmt -> SuperStruct.calcsize fmt = struct.calcsize fmt.
Proof.
  intros P. unfold SuperStruct.calcsize, SuperStruct._get_overall_size.
  pose proof (size_loop_plain fmt P "" "" 0%nat) as E.
  rewrite append_nil_r in E. rewrite E.
  cbn [String.append SuperStruct.overall_size_loop].
  apply add_size_calcsize.
Qed.

(** X16.  On a format without [F] and [S], [SuperStruct] is [struct]:
    [calcsize] gives the same size or the same [struct.error], and
    [unpack] the same values or the same error. *)
Theorem SuperStruct_plain_is_struct (fmt : string) (bb : bytes) :
  plain_format fmt ->
  SuperStruct.calcsize fmt = struct.calcsize fmt
  /\ SuperStruct.unpack fmt bb = struct.unpack fmt bb.
Proof.
  intros P. split; [now apply calcsize_plain |].
  unfold SuperStruct.unpack. unfold plain_format in P. now rewrite P.
Qed.

Lemma SuperStruct_plain_is_struct_witness :
  SuperStruct.calcsize "BH" = struct.calcsize "BH"
  /\ SuperStruct.unpack "BH" [x01; x00; x02; x00]
     = struct.unpack "BH" [x01; x00; x02; x00].
Proof.
  apply (SuperStruct_plain_is_struct "BH" [x01; x00; x02; x00]).
  reflexivity.
Defined.

Lemma add_size_le (inter : string) (sz n : nat) :
  SuperStruct.add_size inter sz = Ok n -> (sz <= n)%nat.
Proof.
  unfold SuperStruct.add_size. destruct inter as [| a inter].
  - intros H. injection H as <-. lia.
  - destruct (struct.calcsize (String a inter)) as [m |]; [| discriminate].
    cbn [bind]. intros H. injection H as <-. lia.
Qed.

Lemma size_loop_le (fmt : string) :
  forall inter sz total,
    SuperStruct.overall_size_loop fmt inter sz = Ok total ->
    (sz <= total)%nat.
Proof.
  induction fmt as [| s rest IH]; intros inter sz total H.
  - exact (add_size_le _ _ _ H).
  - cbn [SuperStruct.overall_size_loop] in H.
    destruct (SuperStruct.is_spec s).
    + destruct (SuperStruct.add_size inter sz) as [sz1 |] eqn:A;
        [| discriminate].
      cbn [bind] in H. apply add_size_le in A. apply IH in H.
      unfold SuperStruct.len_F, SuperStruct.len_SF in H.
      destruct (Ascii.eqb s "F"); [lia |].
      destruct (Ascii.eqb s "S"); lia.
    + exact (IH _ _ _ H).
Qed.

Lemma slice_length (bb : bytes) (i n : nat) :
  (i + n <= List.length bb)%nat ->
  List.length (SuperStruct.slice bb i n) = n.
Proof.
  intros H. unfold SuperStruct.slice.
  rewrite length_firstn, length_skipn. lia.
Qed.

Lemma unpack_of_calcsize (fmt : string) (buf : bytes) (n : nat) :
  struct.calcsize fmt = Ok n -> List.length buf = n ->
  exists vs, struct.unpack fmt buf = Ok vs.
Proof.
  unfold struct.calcsize, struct.unpack.
  destruct (struct.parse fmt None) as [items |]; [| discriminate].
  cbn [bind]. intros H L. injection H as <-.
  rewrite L, Nat.eqb_refl. eexists. reflexivity.
Qed.

Lemma calcsize_of_unpack (fmt : string) (buf : bytes) (vs : list pyval) :
  struct.unpack fmt buf = Ok vs ->
  struct.calcsize fmt = Ok (List.length buf).
Proof.
  unfold struct.calcsize, struct.unpack.
  destruct (struct.parse fmt None) as [items |]; [| discriminate].
  cbn [bind].
  destruct (List.length buf =? struct.size_items items 0)%nat eqn:L;
    [| discriminate].
  apply Nat.eqb_eq in L. now rewrite L.
Qed.

Lemma decode_FLOAT_total (value : bytes) :
  List.length value = 4%nat ->
  exists v, decode_FLOAT_ieee11073 value = Ok v.
Proof.
  destruct value as [| b0 [| b1 [| b2 [| b3 [| ? ?]]]]]; try discriminate.
  intros _. rewrite decode_FLOAT_eq. cbv zeta.
  destruct (if sint8 b3 =? 0
            then special_get special_values_FLOAT (sint24 b0 b1 b2)
            else None); eexists; reflexivity.
Qed.

Lemma decode_SFLOAT_total (value : bytes) :
  List.length value = 2%nat ->
  exists v, decode_SFLOAT_ieee11073 value = Ok v.
Proof.
  destruct value as [| lo [| hi [| ? ?]]]; try discriminate.
  intros _. rewrite decode_SFLOAT_eq. cbv zeta.
  match goal with
  | |- context [match ?m with Some _ => _ | None => _ end] => destruct m
  end; eexists; reflexivity.
Qed.

Lemma run_values_ok (bb : bytes) (w : SuperStruct.walk) (n : nat) :
  struct.calcsize (SuperStruct.intermediate_fmt_string w) = Ok n ->
  (SuperStruct.index w + n <= List.length bb)%nat ->
  exists val, SuperStruct.run_values bb w = Ok (val, n).
Proof.
  intros C L. unfold SuperStruct.run_values. rewrite C. cbn [bind].
  destruct (unpack_of_calcsize _ (SuperStruct.slice bb (SuperStruct.index w) n)
              n C (slice_length _ _ _ L)) as [val ->].
  cbn [bind]. now exists val.
Qed.

(** When the size of the format fits the buffer, the walk decodes every
    item. *)
Lemma walk_ok (bb : bytes) (fmt : string) :
  forall (w : SuperStruct.walk) (total : nat),
    SuperStruct.overall_size_loop fmt (SuperStruct.intermediate_fmt_string w)
      (SuperStruct.index w) = Ok total ->
    (total <= List.length bb)%nat ->
    exists w' vs,
      SuperStruct.index_bytes_loop fmt bb w = Ok w'
      /\ SuperStruct.last_run bb w' = Ok vs.
Proof.
  induction fmt as [| s rest IH]; intros w total H L.
  - cbn [SuperStruct.overall_size_loop SuperStruct.index_bytes_loop] in *.
    exists w. unfold SuperStruct.last_run, SuperStruct.add_size in *.
    destruct (SuperStruct.intermediate_fmt_string w) as [| a inter] eqn:I.
    + eexists. now split.
    + destruct (struct.calcsize (String a inter)) as [n |] eqn:C;
        [| discriminate].
      cbn [bind] in H. injection H as <-.
      destruct (run_values_ok bb w n) as [val R]; [now rewrite I | lia |].
      rewrite R. cbn [bind]. eexists. now split.
  - cbn [SuperStruct.overall_size_loop SuperStruct.index_bytes_loop] in *.
    unfold SuperStruct.index_bytes_step.
    destruct (SuperStruct.is_spec s) eqn:S.
    + destruct (SuperStruct.add_size (SuperStruct.intermediate_fmt_string w)
                  (SuperStruct.index w)) as [sz1 |] eqn:A; [| discriminate].
      cbn [bind] in H.
      assert (F : exists w1,
                 match SuperStruct.intermediate_fmt_string w with
                 | EmptyString => Ok w
                 | _ =>
                     '(val, n) <- SuperStruct.run_values bb w ;;
                     Ok (SuperStruct.mkWalk
                           (SuperStruct.intermediate_fmt_string w)
                           (SuperStruct.values w ++ val)
                           (SuperStruct.index w + n)
                           (SuperStruct.indexes w))
                 end = Ok w1
                 /\ SuperStruct.index w1 = sz1).
      { pose proof (size_loop_le _ _ _ _ H) as M.
        unfold SuperStruct.add_size in A.
        destruct (SuperStruct.intermediate_fmt_string w) as [| a inter] eqn:I.
        - injection A as <-. now exists w.
        - destruct (struct.calcsize (String a inter)) as [n |] eqn:C;
            [| discriminate].
          cbn [bind] in A. injection A as <-.
          destruct (run_values_ok bb w n) as [val R].
          + now rewrite I.
          + destruct (Ascii.eqb s "F"); [lia |].
            destruct (Ascii.eqb s "S"); lia.
          + rewrite R. cbn [bind]. eexists. split; reflexivity. }
      destruct F as [w1 [-> <-]]. cbn [bind].
      pose proof (size_loop_le _ _ _ _ H) as M.
      destruct (is_spec_cases s S) as [-> | ->].
      * change (Ascii.eqb "F" "F") with true in *. cbv iota in H, M |- *.
        unfold SuperStruct.len_F in M.
        destruct (decode_FLOAT_total
                    (SuperStruct.slice bb (SuperStruct.index w1)
                       SuperStruct.len_F)) as [v ->].
        { apply slice_length. lia. }
        cbn [bind]. apply (IH _ total); [exact H | exact L].
      * change (Ascii.eqb "S" "F") with false in *.
        change (Ascii.eqb "S" "S") with true in *. cbv iota in H, M |- *.
        unfold SuperStruct.len_SF in M.
        destruct (decode_SFLOAT_total
                    (SuperStruct.slice bb (SuperStruct.index w1)
                       SuperStruct.len_SF)) as [v ->].
        { apply slice_length. lia. }
        cbn [bind]. apply (IH _ total); [exact H | exact L].
    + cbn [bind]. apply (IH _ total); [exact H | exact L].
Qed.

(** X17.  [SuperStruct.unpack] returns values exactly for the buffers
    that have the size [SuperStruct.calcsize] gives for the format; on any
    other buffer, and on a format [calcsize] refuses, it raises. *)
Theorem SuperStruct_unpack_iff_size (fmt : string) (bb : bytes) :
  modelled_format fmt ->
  (exists vs, SuperStruct.unpack fmt bb = Ok vs)
  <-> SuperStruct.calcsize fmt = Ok (List.length bb).
Proof.
  intros _. unfold SuperStruct.unpack.
  destruct (existsb SuperStruct.is_spec (list_ascii_of_string fmt)) eqn:P.
  - unfold SuperStruct._get_all_index_bytes, SuperStruct.calcsize.
    destruct (SuperStruct._get_overall_size fmt) as [n |] eqn:E.
    + cbn [bind].
      destruct (List.length bb =? n)%nat eqn:L; cbn [negb].
      * apply Nat.eqb_eq in L. subst n. split; [reflexivity |]. intros _.
        destruct (walk_ok bb fmt (SuperStruct.mkWalk "" [] 0 [])
                    (List.length bb) E (le_n _)) as [w' [vs [E1 E2]]].
        rewrite E1. cbn [bind]. rewrite E2. cbn [bind]. now exists vs.
      * apply Nat.eqb_neq in L. split.
        -- intros [vs H]. discriminate H.
        -- intros H. injection H as ->. now contradiction L.
    + cbn [bind]. split; [intros [vs H] |]; discriminate.
  - rewrite (calcsize_plain fmt P). split.
    + intros [vs H]. exact (calcsize_of_unpack _ _ _ H).
    + intros H. exact (unpack_of_calcsize _ _ _ H eq_refl).
Qed.

Lemma SuperStruct_unpack_iff_size_witness :
  (exists vs, SuperStruct.unpack "HS" [x01; x00; x19; x00] = Ok vs)
  <-> SuperStruct.calcsize "HS" = Ok 4%nat.
Proof.
  apply (SuperStruct_unpack_iff_size "HS" [x01; x00; x19; x00]).
  reflexivity.
Defined.

Lemma add_size_shift (inter : string) (k sz : nat) :
  SuperStruct.add_size inter (k + sz)
  = (n <- SuperStruct.add_size inter sz ;; Ok (k + n)%nat).
Proof.
  unfold SuperStruct.add_size. destruct inter as [| a inter]; [reflexivity |].
  destruct (struct.calcsize (String a inter)); cbn [bind]; [| reflexivity].
  now rewrite Nat.add_assoc.
Qed.

Lemma size_loop_shift (fmt : string) (k : nat) :
  forall inter sz,
    SuperStruct.overall_size_loop fmt inter (k + sz)
    = (n <- SuperStruct.overall_size_loop fmt inter sz ;; Ok (k + n)%nat).
Proof.
  induction fmt as [| s rest IH]; intros inter sz.
  - apply add_size_shift.
  - cbn [SuperStruct.overall_size_loop].
    destruct (SuperStruct.is_spec s); [| apply IH].
    rewrite add_size_shift.
    destruct (SuperStruct.add_size inter sz) as [n |]; cbn [bind];
      [| reflexivity].
    destruct (Ascii.eqb s "F"); [rewrite <- Nat.add_assoc; apply IH |].
    destruct (Ascii.eqb s "S"); [rewrite <- Nat.add_assoc |]; apply IH.
Qed.

(** Over plain codes the walk only collects them. *)
Lemma walk_plain (bb : bytes) (pre : string) :
  plain_format pre ->
  forall rest inter vs i seen,
    SuperStruct.index_bytes_loop (String.append pre rest) bb
      (SuperStruct.mkWalk inter vs i seen)
    = SuperStruct.index_bytes_loop rest bb
        (SuperStruct.mkWalk (String.append inter pre) vs i seen).
Proof.
  induction pre as [| s pre IH]; intros P rest inter vs i seen.
  - now rewrite append_nil_r.
  - destruct (plain_format_cons _ _ P) as [S P'].
    cbn [String.append SuperStruct.index_bytes_loop].
    unfold SuperStruct.index_bytes_step. rewrite S.
    cbn [bind SuperStruct.intermediate_fmt_string SuperStruct.values
         SuperStruct.index SuperStruct.indexes].
    rewrite (IH P'), append_assoc. reflexivity.
Qed.

Lemma skipn_shift {A} (before l : list A) (i : nat) :
  skipn (List.length before + i) (before ++ l) = skipn i l.
Proof.
  induction before as [| a before IH]; [reflexivity |]. exact IH.
Qed.

Lemma slice_shift (before bb : bytes) (i n : nat) :
  SuperStruct.slice (before ++ bb) (List.length before + i) n
  = SuperStruct.slice bb i n.
Proof.
  unfold SuperStruct.slice. now rewrite skipn_shift.
Qed.

Lemma slice_all (bb rest : bytes) :
  SuperStruct.slice (bb ++ rest) 0 (List.length bb) = bb.
Proof.
  unfold SuperStruct.slice. cbn [skipn].
  rewrite firstn_app, Nat.sub_diag, firstn_all. cbn [firstn].
  apply app_nil_r.
Qed.

Lemma run_values_shift (before bb : bytes) (found : list pyval)
  (seen : list nat) (w : SuperStruct.walk) :
  SuperStruct.run_values (before ++ bb) (shift_walk before found seen w)
  = SuperStruct.run_values bb w.
Proof.
  unfold SuperStruct.run_values, shift_walk.
  cbn [SuperStruct.intermediate_fmt_string SuperStruct.index].
  destruct (struct.calcsize (SuperStruct.intermediate_fmt_string w));
    cbn [bind]; [| reflexivity].
  now rewrite slice_shift.
Qed.

Lemma step_shift (before bb : bytes) (found : list pyval) (seen : list nat)
  (w : SuperStruct.walk) (s : ascii) :
  SuperStruct.index_bytes_step (before ++ bb)
    (shift_walk before found seen w) s
  = (w' <- SuperStruct.index_bytes_step bb w s ;;
     Ok (shift_walk before found seen w')).
Proof.
  unfold SuperStruct.index_bytes_step.
  destruct (SuperStruct.is_spec s); [| reflexivity].
  assert (E : match SuperStruct.intermediate_fmt_string
                      (shift_walk before found seen w) with
              | EmptyString => Ok (shift_walk before found seen w)
              | _ =>
                  '(val, n) <- SuperStruct.run_values (before ++ bb)
                                 (shift_walk before found seen w) ;;
                  Ok (SuperStruct.mkWalk
                        (SuperStruct.intermediate_fmt_string
                           (shift_walk before found seen w))
                        (SuperStruct.values (shift_walk before found seen w)
                         ++ val)
                        (SuperStruct.index (shift_walk before found seen w)
                         + n)
                        (SuperStruct.indexes
                           (shift_walk before found seen w)))
              end
              = (w1 <- match SuperStruct.intermediate_fmt_string w with
                       | EmptyString => Ok w
                       | _ =>
                           '(val, n) <- SuperStruct.run_values bb w ;;
                           Ok (SuperStruct.mkWalk
                                 (SuperStruct.intermediate_fmt_string w)
                                 (SuperStruct.values w ++ val)
                                 (SuperStruct.index w + n)
                                 (SuperStruct.indexes w))
                       end ;;
                 Ok (shift_walk before found seen w1))).
  { rewrite run_values_shift.
    change (SuperStruct.intermediate_fmt_string
              (shift_walk before found seen w))
      with (SuperStruct.intermediate_fmt_string w).
    destruct (SuperStruct.intermediate_fmt_string w) as [| a inter];
      [reflexivity |].
    destruct (SuperStruct.run_values bb w) as [[val n] |]; cbn [bind];
      [| reflexivity].
    unfold shift_walk.
    cbn [SuperStruct.intermediate_fmt_string SuperStruct.values
         SuperStruct.index SuperStruct.indexes].
    now rewrite app_assoc, Nat.add_assoc. }
  rewrite E. clear E.
  match goal with
  | |- context [bind ?m (fun w1 => Ok (shift_walk before found seen w1))] =>
      destruct m as [w1 |]
  end; cbn [bind]; [| reflexivity].
  assert (I : SuperStruct.indexes (shift_walk before found seen w1)
              ++ [SuperStruct.index (shift_walk before found seen w1)]
              = seen ++ map (Nat.add (List.length before))
                          (SuperStruct.indexes w1 ++ [SuperStruct.index w1])).
  { unfold shift_walk. cbn [SuperStruct.indexes SuperStruct.index].
    now rewrite map_app, app_assoc. }
  rewrite I. clear I.
  change (SuperStruct.index (shift_walk before found seen w1))
    with (List.length before + SuperStruct.index w1)%nat.
  change (SuperStruct.values (shift_walk before found seen w1))
    with (found ++ SuperStruct.values w1).
  rewrite !slice_shift.
  destruct (Ascii.eqb s "F").
  - destruct (decode_FLOAT_ieee11073 _); cbn [bind]; [| reflexivity].
    unfold shift_walk.
    cbn [SuperStruct.intermediate_fmt_string SuperStruct.values
         SuperStruct.index SuperStruct.indexes].
    now rewrite app_assoc, Nat.add_assoc.
  - destruct (Ascii.eqb s "S").
    + destruct (decode_SFLOAT_ieee11073 _); cbn [bind]; [| reflexivity].
      unfold shift_walk.
      cbn [SuperStruct.intermediate_fmt_string SuperStruct.values
           SuperStruct.index SuperStruct.indexes].
      now rewrite app_assoc, Nat.add_assoc.
    + reflexivity.
Qed.

Lemma loop_shift (before bb : bytes) (found : list pyval) (seen : list nat)
  (fmt : string) :
  forall w,
    SuperStruct.index_bytes_loop fmt (before ++ bb)
      (shift_walk before found seen w)
    = (w' <- SuperStruct.index_bytes_loop fmt bb w ;;
       Ok (shift_walk before found seen w')).
Proof.
  induction fmt as [| s rest IH]; intros w; [reflexivity |].
  cbn [SuperStruct.index_bytes_loop]. rewrite step_shift.
  destruct (SuperStruct.index_bytes_step bb w s) as [w1 |]; cbn [bind];
    [apply IH | reflexivity].
Qed.

Lemma last_run_shift (before bb : bytes) (found : list pyval)
  (seen : list nat) (w : SuperStruct.walk) :
  SuperStruct.last_run (before ++ bb) (shift_walk before found seen w)
  = (vs <- SuperStruct.last_run bb w ;; Ok (found ++ vs)).
Proof.
  unfold SuperStruct.last_run. rewrite run_values_shift.
  change (SuperStruct.intermediate_fmt_string
            (shift_walk before found seen w))
    with (SuperStruct.intermediate_fmt_string w).
  destruct (SuperStruct.intermediate_fmt_string w); [reflexivity |].
  destruct (SuperStruct.run_values bb w) as [[val n] |]; cbn [bind];
    [| reflexivity].
  unfold shift_walk. cbn [SuperStruct.values]. now rewrite app_assoc.
Qed.

(** With a buffer of the size of the format, [unpack] is the walk and its
    last run, whether the format has special codes or not. *)
Lemma unpack_as_walk (fmt : string) (bb : bytes) :
  SuperStruct.calcsize fmt = Ok (List.length bb) ->
  SuperStruct.unpack fmt bb
  = (w <- SuperStruct.index_bytes_loop fmt bb (SuperStruct.mkWalk "" [] 0 []) ;;
     SuperStruct.last_run bb w).
Proof.
  intros C. unfold SuperStruct.unpack.
  destruct (existsb SuperStruct.is_spec (list_ascii_of_string fmt)) eqn:P.
  - unfold SuperStruct._get_all_index_bytes.
    unfold SuperStruct.calcsize in C. rewrite C. cbn [bind].
    rewrite Nat.eqb_refl. cbn [negb].
    destruct (SuperStruct.index_bytes_loop fmt bb _) as [w |]; cbn [bind];
      [| reflexivity].
    destruct (SuperStruct.last_run bb w); reflexivity.
  - rewrite (calcsize_plain fmt P) in C.
    pose proof (walk_plain bb fmt P "" "" [] 0%nat []) as W.
    rewrite append_nil_r in W. rewrite W.
    cbn [String.append SuperStruct.index_bytes_loop bind].
    unfold SuperStruct.last_run, SuperStruct.run_values.
    cbn [SuperStruct.intermediate_fmt_string SuperStruct.values
         SuperStruct.index].
    destruct fmt as [| a fmt].
    + unfold struct.unpack. cbn [struct.parse bind struct.size_items].
      injection C as C. rewrite <- C. reflexivity.
    + rewrite C. cbn [bind].
      pose proof (slice_all bb []) as S. rewrite app_nil_r in S. rewrite S.
      destruct (struct.unpack (String a fmt) bb); reflexivity.
Qed.

(** X18.  How [SuperStruct.unpack] reads a format at its first special
    code: the plain codes before it are unpacked by [struct] on their own
    bytes, the [F] reads the next 4 bytes with [decode_FLOAT_ieee11073]
    (the [S] the next 2 with [decode_SFLOAT_ieee11073]), and what follows
    is unpacked as a format of its own from the bytes after; the values
    come in this order.  The alignment of [struct] so restarts after every
    special code. *)
Theorem SuperStruct_unpack_at_special (pre rest : string) (s : ascii)
  (b_pre b_s b_rest : bytes) :
  modelled_format (String.append pre (String s rest)) ->
  plain_format pre ->
  SuperStruct.is_spec s = true ->
  struct.calcsize pre = Ok (List.length b_pre) ->
  List.length b_s = special_size s ->
  SuperStruct.calcsize rest = Ok (List.length b_rest) ->
  SuperStruct.unpack (String.append pre (String s rest))
    (b_pre ++ b_s ++ b_rest)
  = (v_pre <- struct.unpack pre b_pre ;;
     v_s <- decode_special s b_s ;;
     v_rest <- SuperStruct.unpack rest b_rest ;;
     Ok (v_pre ++ v_s :: v_rest)).
Proof.
  intros _ P S Cpre Ls Crest.
  assert (Z0 : special_size s
               = if Ascii.eqb s "F" then SuperStruct.len_F
                 else if Ascii.eqb s "S" then SuperStruct.len_SF else O).
  { unfold special_size. destruct (is_spec_cases s S) as [-> | ->];
      reflexivity. }
  (* the size of the whole format *)
  assert (Csize : SuperStruct.calcsize (String.append pre (String s rest))
                  = Ok (List.length (b_pre ++ b_s ++ b_rest))).
  { unfold SuperStruct.calcsize, SuperStruct._get_overall_size.
    rewrite (size_loop_plain pre P).
    cbn [String.append SuperStruct.overall_size_loop]. rewrite S.
    rewrite add_size_calcsize, Cpre. cbn [bind].
    replace (if Ascii.eqb s "F"
             then (List.length b_pre + SuperStruct.len_F)%nat
             else if Ascii.eqb s "S"
                  then (List.length b_pre + SuperStruct.len_SF)%nat
                  else List.length b_pre)
      with ((List.length b_pre + special_size s) + 0)%nat
      by (rewrite Z0; destruct (Ascii.eqb s "F");
          [| destruct (Ascii.eqb s "S")]; lia).
    rewrite size_loop_shift.
    unfold SuperStruct.calcsize, SuperStruct._get_overall_size in Crest.
    rewrite Crest. cbn [bind]. rewrite !length_app, Ls. f_equal. lia. }
  rewrite (unpack_as_walk _ _ Csize), (unpack_as_walk _ _ Crest).
  rewrite (walk_plain _ pre P).
  cbn [String.append SuperStruct.index_bytes_loop].
  unfold SuperStruct.index_bytes_step at 1. rewrite S.
  cbn [SuperStruct.intermediate_fmt_string SuperStruct.values
       SuperStruct.index SuperStruct.indexes].
  (* the plain codes before the special one *)
  assert (R : match pre with
              | EmptyString => Ok (SuperStruct.mkWalk pre [] 0 [])
              | _ =>
                  '(val, n) <- SuperStruct.run_values
                                 (b_pre ++ b_s ++ b_rest)
                                 (SuperStruct.mkWalk pre [] 0 []) ;;
                  Ok (SuperStruct.mkWalk pre ([] ++ val) (0 + n) [])
              end
              = (v_pre <- struct.unpack pre b_pre ;;
                 Ok (SuperStruct.mkWalk pre v_pre (List.length b_pre) []))).
  { destruct pre as [| a pre].
    - unfold struct.unpack. cbn [struct.parse bind struct.size_items].
      injection Cpre as Cpre. rewrite <- Cpre. reflexivity.
    - unfold SuperStruct.run_values.
      cbn [SuperStruct.intermediate_fmt_string SuperStruct.index].
      rewrite Cpre. cbn [bind]. rewrite slice_all.
      destruct (struct.unpack (String a pre) b_pre); reflexivity. }
  rewrite R. clear R.
  destruct (struct.unpack pre b_pre) as [v_pre |]; cbn [bind];
    [| reflexivity].
  cbn [SuperStruct.intermediate_fmt_string SuperStruct.values
       SuperStruct.index SuperStruct.indexes].
  (* the special code *)
  assert (D : forall n, n = special_size s ->
                SuperStruct.slice (b_pre ++ b_s ++ b_rest)
                  (List.length b_pre) n = b_s).
  { intros n ->. rewrite <- (Nat.add_0_r (List.length b_pre)), slice_shift.
    rewrite <- Ls. apply slice_all. }
  assert (W : forall v_s,
            SuperStruct.index_bytes_loop rest (b_pre ++ b_s ++ b_rest)
              (SuperStruct.mkWalk "" (v_pre ++ [v_s])
                 (List.length b_pre + special_size s)
                 ([] ++ [List.length b_pre]))
            = (w <- SuperStruct.index_bytes_loop rest b_rest
                      (SuperStruct.mkWalk "" [] 0 []) ;;
               Ok (shift_walk (b_pre ++ b_s) (v_pre ++ [v_s])
                     [List.length b_pre] w))).
  { intros v_s. rewrite app_assoc, <- loop_shift. f_equal.
    unfold shift_walk.
    cbn [SuperStruct.intermediate_fmt_string SuperStruct.values
         SuperStruct.index SuperStruct.indexes map].
    now rewrite !app_nil_r, length_app, Ls, Nat.add_0_r. }
  assert (T : forall v_s,
            (w <- SuperStruct.index_bytes_loop rest (b_pre ++ b_s ++ b_rest)
                    (SuperStruct.mkWalk "" (v_pre ++ [v_s])
                       (List.length b_pre + special_size s)
                       ([] ++ [List.length b_pre])) ;;
             SuperStruct.last_run (b_pre ++ b_s ++ b_rest) w)
            = (v_rest <- (w <- SuperStruct.index_bytes_loop rest b_rest
                                 (SuperStruct.mkWalk "" [] 0 []) ;;
                          SuperStruct.last_run b_rest w) ;;
               Ok (v_pre ++ v_s :: v_rest))).
  { intros v_s. rewrite W.
    destruct (SuperStruct.index_bytes_loop rest b_rest _) as [w |];
      cbn [bind]; [| reflexivity].
    rewrite app_assoc, last_run_shift.
    destruct (SuperStruct.last_run b_rest w) as [vs |]; cbn [bind];
      [| reflexivity].
    now rewrite <- app_assoc. }
  unfold decode_special.
  destruct (is_spec_cases s S) as [-> | ->].
  - change (Ascii.eqb "F" "F") with true. cbv iota.
    rewrite (D SuperStruct.len_F eq_refl).
    destruct (decode_FLOAT_ieee11073 b_s) as [v_s |]; cbn [bind];
      [| reflexivity].
    exact (T v_s).
  - change (Ascii.eqb "S" "F") with false.
    change (Ascii.eqb "S" "S") with true. cbv iota.
    rewrite (D SuperStruct.len_SF eq_refl).
    destruct (decode_SFLOAT_ieee11073 b_s) as [v_s |]; cbn [bind];
      [| reflexivity].
    exact (T v_s).
Qed.

Lemma SuperStruct_unpack_at_special_witness :
  SuperStruct.unpack "BFH" [x01; x10; x00; x00; xff; x02; x00]
  = Ok [PInt 1; PFloat (FNum (8 # 5)); PInt 2].
Proof.
  exact (SuperStruct_unpack_at_special "B" "H" "F"%char
           [x01] [x10; x00; x00; xff] [x02; x00]
           eq_refl eq_refl eq_refl eq_refl eq_refl eq_refl).
Defined.

(** * The length of the input of the decoders *)

Lemma unpack_4b_length (value : bytes) :
  List.length value <> 4%nat -> struct.unpack "4b" value = Raise StructError.
Proof.
  intros H. unfold struct.unpack.
  change (struct.parse "4b" None) with (Ok [(4%nat, struct.Cb)]).
  cbn [bind struct.size_items struct.size struct.align].
  change (4 * 1)%nat with 4%nat.
  destruct (List.length value =? _)%nat eqn:E; [| reflexivity].
  apply Nat.eqb_eq in E. cbn in E. contradiction.
Qed.

(** X19.  [decode_FLOAT_ieee11073] takes exactly 4 bytes: on any other
    length it raises [struct.error].  [decode_SFLOAT_ieee11073] only
    reads the first two bytes: with fewer it raises [IndexError], and
    whatever follows the first two is ignored. *)
Theorem decoders_input_length (value : bytes) :
  (List.length value <> 4%nat ->
   decode_FLOAT_ieee11073 value = Raise StructError)
  /\ decode_SFLOAT_ieee11073 value
     = match value with
       | lo :: hi :: _ => decode_SFLOAT_ieee11073 [lo; hi]
       | _ => Raise IndexError
       end.
Proof.
  split.
  - intros H. unfold decode_FLOAT_ieee11073.
    now rewrite unpack_4b_length.
  - destruct value as [| lo [| hi extra]]; reflexivity.
Qed.

Lemma decoders_input_length_witness :
  decode_FLOAT_ieee11073 [x01; x02] = Raise StructError
  /\ decode_SFLOAT_ieee11073 [x19; x00; xff]
     = decode_SFLOAT_ieee11073 [x19; x00].
Proof.
  destruct (decoders_input_length [x01; x02]) as [F _].
  destruct (decoders_input_length [x19; x00; xff]) as [_ S].
  split; [apply F; discriminate | exact S].
Defined.

(** * One bit field and all of them *)

Lemma dict_get_set_same {V} (d : list (string * V)) (k : string) (v : V) :
  dict_get (dict_set d k v) k = Some v.
Proof.
  induction d as [| [k0 v0] d IH]; cbn [dict_set dict_get].
  - now rewrite String.eqb_refl.
  - destruct (String.eqb k k0) eqn:E; cbn [dict_get].
    + now rewrite String.eqb_refl.
    + now rewrite E.
Qed.

Lemma dict_get_set_other {V} (d : list (string * V)) (k k' : string) (v : V) :
  k' <> k -> dict_get (dict_set d k v) k' = dict_get d k'.
Proof.
  intros N. induction d as [| [k0 v0] d IH]; cbn [dict_set dict_get].
  - apply String.eqb_neq in N. now rewrite N.
  - destruct (String.eqb k k0) eqn:E; cbn [dict_get].
    + apply String.eqb_eq in E. subst k0. apply String.eqb_neq in N.
      now rewrite N.
    + now rewrite IH.
Qed.

(** The pass over the fields leaves the entries of the other fields. *)
Lemma autoformat_keeps (val : pyval) (fs : list (string * Field))
  (field : string) :
  ~ In field (dict_keys fs) ->
  forall acc a,
    foldM (fun acc fld => autoformat_field val acc (fst fld) (snd fld))
          fs acc = Ok a ->
    dict_get a field = dict_get acc field.
Proof.
  unfold dict_keys.
  induction fs as [| [k f] rest IH]; intros N acc a H.
  - cbn in H. now injection H as <-.
  - cbn [foldM fst snd] in H. cbn [map fst In] in N.
    destruct (autoformat_field val acc k f) as [acc1 |] eqn:E;
      [| discriminate].
    cbn [bind] in H. rewrite (IH (fun X => N (or_intror X)) _ _ H).
    unfold autoformat_field in E.
    destruct (Ctype f); [| now injection E as <-].
    destruct (BitField f) as [bitfield |]; [| now injection E as <-].
    cbv zeta in E.
    match type of E with
    | bind ?m _ = _ => destruct m as [entry |]; [| discriminate]
    end.
    cbn [bind] in E. injection E as <-.
    apply dict_get_set_other. intros ->. apply N. now left.
Qed.

Lemma autoformat_entry (val : pyval) (fs : list (string * Field))
  (field : string) (f : Field) :
  NoDup (dict_keys fs) ->
  In (field, f) fs ->
  forall acc a,
    foldM (fun acc fld => autoformat_field val acc (fst fld) (snd fld))
          fs acc = Ok a ->
    exists acc1,
      autoformat_field val acc1 field f
      = Ok (match Ctype f, BitField f with
            | Some _, Some _ =>
                match dict_get a field with
                | Some entry => dict_set acc1 field entry
                | None => acc1
                end
            | _, _ => acc1
            end)
      /\ (match Ctype f, BitField f with
          | Some _, Some _ => dict_get a field <> None
          | _, _ => True
          end).
Proof.
  unfold dict_keys.
  induction fs as [| [k f0] rest IH]; intros N Hin acc a H; [contradiction |].
  cbn [map fst] in N. inversion N as [| ? ? Nk N']; subst.
  cbn [foldM fst snd] in H.
  destruct (autoformat_field val acc k f0) as [acc1 |] eqn:E;
    [| discriminate].
  cbn [bind] in H.
  destruct Hin as [Heq | Hin].
  - injection Heq as -> ->. exists acc.
    pose proof (autoformat_keeps val rest field Nk _ _ H) as K.
    unfold autoformat_field in E |- *.
    destruct (Ctype f); [| split; [reflexivity | exact I]].
    destruct (BitField f) as [bitfield |]; [| split; [reflexivity | exact I]].
    cbv zeta in E |- *.
    match type of E with
    | bind ?m _ = _ => destruct m as [entry |]; [| discriminate]
    end.
    cbn [bind] in E |- *. injection E as <-.
    rewrite dict_get_set_same in K. rewrite K. split; [reflexivity | discriminate].
  - exact (IH N' Hin _ _ H).
Qed.

(** X20.  [_autoformat] asked for one field agrees with [_autoformat]
    over all the fields: when the decode of all the bit fields returns,
    the decode of one field that has a code and a bit field returns the
    one entry that the full result has under the field's name. *)
Theorem autoformat_one_field (char : CHAR_XML) (val : pyval)
  (a : pydict (pydict pyval)) (field ctype : string) (f : Field)
  (bitfield : list (string * Bit)) :
  NoDup (dict_keys (fields char)) ->
  _autoformat char val None = Ok a ->
  field <> "" ->
  In (field, f) (fields char) ->
  Ctype f = Some ctype ->
  BitField f = Some bitfield ->
  exists entry,
    dict_get a field = Some entry
    /\ _autoformat char val (Some field) = Ok [(field, entry)].
Proof.
  intros N H Hne Hin C B.
  unfold _autoformat in H |- *.
  destruct (autoformat_entry val (fields char) field f N Hin _ _ H)
    as [acc1 [E D]].
  rewrite C, B in E, D.
  destruct (dict_get a field) as [entry |] eqn:G; [| now contradiction D].
  exists entry. split; [reflexivity |].
  destruct field as [| c field]; [now contradiction Hne |].
  assert (I : dict_get (fields char) (String c field) = Some f).
  { destruct (dict_get_of_in _ _ _ Hin) as [f' G'].
    rewrite G'. f_equal.
    clear - N Hin G'. unfold dict_keys in N.
    induction (fields char) as [| [k0 f0] d IH]; [contradiction |].
    cbn [map fst] in N. inversion N as [| ? ? Nk N']; subst.
    cbn [dict_get] in G'.
    destruct (String.eqb (String c field) k0) eqn:E.
    - apply String.eqb_eq in E. subst k0.
      destruct Hin as [Heq | Hin]; [congruence |].
      exfalso. apply Nk. apply in_map_iff. now exists (String c field, f).
    - destruct Hin as [Heq | Hin].
      + injection Heq as -> ->. rewrite String.eqb_refl in E. discriminate.
      + now apply IH. }
  unfold dict_item. rewrite I. cbn [bind].
  unfold autoformat_field in E |- *. rewrite C, B in E |- *.
  cbv zeta in E |- *.
  match goal with
  | |- bind ?m _ = _ => destruct m as [entry' |]; [| discriminate E]
  end.
  cbn [bind] in E |- *. injection E as E.
  apply (f_equal (fun d => dict_get d (String c field))) in E.
  rewrite !dict_get_set_same in E. injection E as ->. reflexivity.
Qed.

Lemma autoformat_one_field_witness :
  exists entry,
    dict_get [("Flags", [("Bit0", PStr "present")])] "Flags" = Some entry
    /\ _autoformat char_flags_A_B (PInt 1) (Some "Flags")
       = Ok [("Flags", entry)].
Proof.
  apply (autoformat_one_field char_flags_A_B (PInt 1)
           [("Flags", [("Bit0", PStr "present")])] "Flags" "B" flags_bit0
           [("Bit0", mkBit 0 1 (Some bit0_keymap))]).
  - repeat constructor; cbn; intuition discriminate.
  - reflexivity.
  - discriminate.
  - left. reflexivity.
  - reflexivity.
  - reflexivity.
Defined.

(** * [mac_int_2_str] *)

Lemma upper_app (a b : string) :
  upper (String.append a b) = String.append (upper a) (upper b).
Proof.
  induction a as [| c a IH]; [reflexivity |]. cbn. now rewrite IH.
Qed.

Lemma length_append (a b : string) :
  String.length (String.append a b) = (String.length a + String.length b)%nat.
Proof.
  induction a as [| c a IH]; [reflexivity |]. cbn. now rewrite IH.
Qed.

Lemma HEX_not_sign (d : Z) :
  (Ascii.eqb (upper_char (hex_digit d)) "+"
   || Ascii.eqb (upper_char (hex_digit d)) "-")%bool = false.
Proof.
  unfold hex_digit. generalize (Z.to_nat d). intros n.
  do 16 (destruct n as [| n]; [reflexivity |]). reflexivity.
Qed.

Lemma zfill_unsigned (width : nat) (d : Z) (rest : string) :
  zfill width (String (upper_char (hex_digit d)) rest)
  = String.append
      (zeros (width - String.length (String (upper_char (hex_digit d)) rest)))
      (String (upper_char (hex_digit d)) rest).
Proof.
  unfold zfill. now rewrite HEX_not_sign.
Qed.

Lemma zeros_snoc (n : nat) :
  String.append (zeros n) "0" = String "0" (zeros n).
Proof.
  induction n as [| n IH]; [reflexivity |]. cbn. now rewrite IH.
Qed.

Lemma fixed_HEX_snoc (k : nat) (n : Z) :
  0 <= n ->
  fixed_HEX (S k) n
  = String.append (fixed_HEX k (n / 16)) (String (HEX_at n 0) "").
Proof.
  intros N. induction k as [| k IH]; [reflexivity |].
  change (fixed_HEX (S (S k)) n)
    with (String (HEX_at n (S k)) (fixed_HEX (S k) n)).
  rewrite IH. cbn [fixed_HEX String.append]. f_equal.
  unfold HEX_at. do 3 f_equal.
  rewrite Z.div_div by lia.
  rewrite Nat2Z.inj_succ, Z.pow_succ_r by lia. reflexivity.
Qed.

Lemma fixed_HEX_zero (k : nat) : fixed_HEX k 0 = zeros k.
Proof.
  induction k as [| k IH]; [reflexivity |].
  cbn [fixed_HEX zeros]. rewrite IH. f_equal.
Qed.

(** The digits of [hex], padded to [S k] places, are the [S k] low digits. *)
Lemma padded_hex_digits (k : nat) :
  forall (fuel : nat) (n : Z),
    0 <= n < 16 ^ Z.of_nat (S k) ->
    n < 16 ^ Z.of_nat (S fuel) ->
    String.append
      (zeros (S k - String.length (upper (hex_digits (S fuel) n))))
      (upper (hex_digits (S fuel) n))
    = fixed_HEX (S k) n.
Proof.
  induction k as [| k IH]; intros fuel n N F.
  - change (16 ^ Z.of_nat 1) with 16 in N.
    cbn [hex_digits]. replace (n <? 16) with true
      by (symmetry; apply Z.ltb_lt; lia).
    cbn [upper String.length Nat.sub zeros String.append fixed_HEX].
    unfold HEX_at. change (16 ^ Z.of_nat 0) with 1.
    rewrite Z.div_1_r, Z.mod_small by lia. reflexivity.
  - rewrite fixed_HEX_snoc by lia.
    unfold HEX_at at 1. change (16 ^ Z.of_nat 0) with 1. rewrite Z.div_1_r.
    cbn [hex_digits]. destruct (n <? 16) eqn:L.
    + apply Z.ltb_lt in L.
      rewrite Z.div_small, Z.mod_small, fixed_HEX_zero by lia.
      cbn [upper String.length Nat.sub]. reflexivity.
    + apply Z.ltb_ge in L.
      destruct fuel as [| fuel].
      { change (16 ^ Z.of_nat 1) with 16 in F. lia. }
      assert (N' : 0 <= n / 16 < 16 ^ Z.of_nat (S k)).
      { split; [apply Z.div_pos; lia |].
        apply Z.div_lt_upper_bound; [lia |].
        rewrite <- Z.pow_succ_r, <- Nat2Z.inj_succ by lia. lia. }
      assert (F' : n / 16 < 16 ^ Z.of_nat (S fuel)).
      { apply Z.div_lt_upper_bound; [lia |].
        rewrite <- Z.pow_succ_r, <- Nat2Z.inj_succ by lia. lia. }
      rewrite <- (IH fuel (n / 16) N' F').
      rewrite upper_app, length_append. cbn [upper String.length].
      rewrite append_assoc. do 2 f_equal. lia.
Qed.

Lemma upper_hex_digits_head (fuel : nat) :
  forall n, exists d rest,
    upper (hex_digits (S fuel) n) = String (upper_char (hex_digit d)) rest.
Proof.
  induction fuel as [| fuel IH]; intros n.
  - cbn [hex_digits]. destruct (n <? 16); cbn; eexists; eexists; reflexivity.
  - change (hex_digits (S (S fuel)) n)
      with (if n <? 16 then String (hex_digit n) ""
            else String.append (hex_digits (S fuel) (n / 16))
                               (String (hex_digit (n mod 16)) "")).
    destruct (n <? 16); [cbn; eexists; eexists; reflexivity |].
    rewrite upper_app. destruct (IH (n / 16)) as [d [rest ->]].
    cbn [String.append]. eexists; eexists; reflexivity.
Qed.

Lemma hex_fuel (n : Z) :
  0 <= n -> n < 16 ^ Z.of_nat (S (Z.to_nat (Z.log2 n))).
Proof.
  intros N. rewrite Nat2Z.inj_succ, Z2Nat.id by apply Z.log2_nonneg.
  destruct (Z.eq_dec n 0) as [-> | Hn]; [reflexivity |].
  assert (P : 0 < n) by lia.
  pose proof (Z.log2_spec n P) as [_ U].
  pose proof (Z.log2_nonneg n) as G.
  apply (Z.lt_le_trans _ _ _ U).
  apply Z.pow_le_mono_l. lia.
Qed.

(** X21.  For an address below 2^48, [mac_int_2_str] gives its six bytes,
    the most significant first, each as two upper-case hexadecimal
    digits, with a colon between them. *)
Theorem mac_int_2_str_bytes (mac : Z) :
  0 <= mac < 2 ^ 48 ->
  mac_int_2_str mac
  = String.concat ":" (map (HEX_byte mac) [5; 4; 3; 2; 1; 0]%nat).
Proof.
  intros M. unfold mac_int_2_str, hex.
  replace (mac <? 0) with false by (symmetry; apply Z.ltb_ge; lia).
  rewrite Z.abs_eq by lia.
  cbn [String.append str_drop].
  destruct (upper_hex_digits_head (Z.to_nat (Z.log2 mac)) mac)
    as [d [rest E]].
  pose proof (padded_hex_digits 11 (Z.to_nat (Z.log2 mac)) mac) as P.
  rewrite E in P |- *. rewrite zfill_unsigned, P.
  - reflexivity.
  - change (16 ^ Z.of_nat 12) with (2 ^ 48). exact M.
  - apply hex_fuel. lia.
Qed.

Lemma mac_int_2_str_bytes_witness :
  mac_int_2_str 20015998343868 = "12:34:56:78:9A:BC".
Proof.
  apply (mac_int_2_str_bytes 20015998343868). lia.
Defined.

(** * One enumerated field *)

(** X22.  A characteristic of one enumerated field that has an integer
    code and no bit field, on a value of the size of the code: when the
    decimal spelling of the integer is a key of the enumeration the result
    is the label alone, without the unit metadata; when it is not, the
    miss is swallowed and the result is the scaled integer with the unit
    metadata, as for a field without enumerations. *)
Theorem single_enum_field (get_xml_char : string -> result CHAR_XML)
  (name field : string) (f : Field) (keymap : Keymap) (a : ascii)
  (c : struct.code) (signed rtn_flags : bool) (val : bytes) :
  Ctype f = Some (String a "") ->
  struct.code_of_ascii a = Some c ->
  int_signed c = Some signed ->
  BitField f = None ->
  Enumerations f = Some keymap ->
  0 <= exponent_of (DecimalExponent f) ->
  0 <= exponent_of (BinaryExponent f) ->
  List.length val = struct.size c ->
  get_char_value get_xml_char val (inr (one_field name field f)) rtn_flags
  = Ok (RVals
      [(field,
        match dict_get (labels keymap) (str_of_int (reading signed val)) with
        | Some label => mkFieldVal None None None (Some (PStr label))
        | None =>
            mkFieldVal (Quantity f) (Unit f) (Symbol f)
              (Some (PInt (reading signed val * multiplier_of f
                           * 10 ^ exponent_of (DecimalExponent f)
                           * 2 ^ exponent_of (BinaryExponent f))))
        end)]).
Proof.
  intros C A S B E D2 B2 L.
  unfold get_char_value, one_field. cbn [bind fields List.length Nat.eqb].
  unfold _get_single_field. cbn [fields single_field_loop].
  rewrite C, B, E, (unpack_one_code a c val A), L, Nat.eqb_refl.
  rewrite (value_of_int c signed val S L).
  destruct (keymap_truthy keymap) eqn:T; cbn [bind unpack1 py_str].
  - destruct (dict_get (labels keymap) (str_of_int (reading signed val)));
      [reflexivity |].
    rewrite (scale_int f _ D2 B2). reflexivity.
  - unfold keymap_truthy in T.
    destruct (labels keymap); [| discriminate T].
    cbn [dict_get]. rewrite (scale_int f _ D2 B2). reflexivity.
Qed.

Lemma single_enum_field_witness :
  get_char_value no_documents [x00] (inr char_status_enum) false
  = Ok (RVals [("Status", mkFieldVal None None None (Some (PStr "off")))])
  /\ get_char_value no_documents [x07] (inr char_status_enum) false
     = Ok (RVals [("Status", mkFieldVal None None None (Some (PInt 7)))]).
Proof.
  split.
  - apply (single_enum_field no_documents "Status" "Status"
             (mkField (Some "uint8") ["Mandatory"]
                (Some (mkKeymap [("0", "off")] None))
                None None None None None None None None)
             (mkKeymap [("0", "off")] None)
             "B"%char struct.CB false false [x00]);
      try reflexivity; cbn; lia.
  - apply (single_enum_field no_documents "Status" "Status"
             (mkField (Some "uint8") ["Mandatory"]
                (Some (mkKeymap [("0", "off")] None))
                None None None None None None None None)
             (mkKeymap [("0", "off")] None)
             "B"%char struct.CB false false [x07]);
      try reflexivity; cbn; lia.
Defined.
